(** * Verification of [utils.py]: identifier generation, template resolution
      and string helpers.

    The development is a shallow embedding of the functions of
    [src/utils.py].  Python 2 byte strings ([str]) are Rocq [string]s (both
    are sequences of 8-bit characters), [unicode] objects are lists of code
    points, dictionaries are [gmap]s living in an explicit store, and the
    collaborators of the module (the datastore, the templating engine, the
    logger) are threaded through explicitly. *)

From Stdlib Require Import ZArith NArith Ascii String List Lia DecimalString.
From stdpp Require Import base option list gmap strings fin_maps fin_sets.

Local Open Scope Z_scope.
Local Open Scope string_scope.

(** ** Python 2 strings

    The module is Python 2 code ([unicode], ['%s%s' % (bytes, int)], ndb).
    A name is a text: [name.encode('utf-8')] is its UTF-8 encoding as a
    byte string (a [str] of ASCII characters encodes to itself). *)

Module Py.

(** A [unicode] object: a sequence of code points. *)
Definition unicode := list N.

Definition chr (z : Z) : ascii := ascii_of_N (Z.to_N z).
Definition ord (c : ascii) : Z := Z.of_N (N_of_ascii c).

Definition str_of_bytes (bs : list Z) : string :=
  string_of_list_ascii (map chr bs).
Definition bytes_of_str (s : string) : list Z :=
  map ord (list_ascii_of_string s).

(** [s[:n]] on a byte string. *)
Fixpoint slice_to (n : nat) (s : string) : string :=
  match n, s with
  | S n', String c s' => String c (slice_to n' s')
  | _, _ => EmptyString
  end.

(** [u.encode('utf-8')] for one code point. *)
Definition utf8_of_code_point (cp : N) : list N :=
  if (cp <? 0x80)%N then [cp]
  else if (cp <? 0x800)%N then
    [N.lor 0xC0 (N.shiftr cp 6); N.lor 0x80 (N.land cp 0x3F)]
  else if (cp <? 0x10000)%N then
    [N.lor 0xE0 (N.shiftr cp 12);
     N.lor 0x80 (N.land (N.shiftr cp 6) 0x3F);
     N.lor 0x80 (N.land cp 0x3F)]
  else
    [N.lor 0xF0 (N.land (N.shiftr cp 18) 0x07);
     N.lor 0x80 (N.land (N.shiftr cp 12) 0x3F);
     N.lor 0x80 (N.land (N.shiftr cp 6) 0x3F);
     N.lor 0x80 (N.land cp 0x3F)].

Definition encode_utf8 (u : unicode) : string :=
  string_of_list_ascii (map ascii_of_N (flat_map utf8_of_code_point u)).

(** A text made of ASCII characters only, as a [unicode] object. *)
Definition unicode_of_ascii (s : string) : unicode :=
  map N_of_ascii (list_ascii_of_string s).

(** ['%s' % n] for a non-negative integer. *)
Definition str_of_int (n : nat) : string :=
  NilZero.string_of_uint (Nat.to_uint n).

End Py.

(** ** [hashlib.sha1]: SHA-1 over 32-bit words (FIPS 180)

    Library code, written out so that identifiers can be computed; the
    examples among the properties compare it with known digests. *)

Module Sha1.

Definition mask32 : Z := 0xFFFFFFFF.
Definition w32 (x : Z) : Z := Z.land x mask32.
Definition add32 (x y : Z) : Z := w32 (x + y).
Definition not32 (x : Z) : Z := Z.lxor x mask32.
Definition rotl (n x : Z) : Z :=
  w32 (Z.lor (Z.shiftl x n) (Z.shiftr x (32 - n))).

(** Five chaining words. *)
Record state := State { h0 : Z; h1 : Z; h2 : Z; h3 : Z; h4 : Z }.

Definition init : state :=
  State 0x67452301 0xEFCDAB89 0x98BADCFE 0x10325476 0xC3D2E1F0.

Definition f (t : nat) (b c d : Z) : Z :=
  if (t <? 20)%nat then Z.lor (Z.land b c) (Z.land (not32 b) d)
  else if (t <? 40)%nat then Z.lxor (Z.lxor b c) d
  else if (t <? 60)%nat then
    Z.lor (Z.lor (Z.land b c) (Z.land b d)) (Z.land c d)
  else Z.lxor (Z.lxor b c) d.

Definition K (t : nat) : Z :=
  if (t <? 20)%nat then 0x5A827999
  else if (t <? 40)%nat then 0x6ED9EBA1
  else if (t <? 60)%nat then 0x8F1BBCDC
  else 0xCA62C1D6.

(** Padding: a [0x80] byte, zeros up to 56 modulo 64, the bit length on
    64 bits, big-endian. *)
Definition be_bytes (n : nat) (x : Z) : list Z :=
  map (fun i => Z.land (Z.shiftr x (8 * Z.of_nat i)) 0xFF) (rev (seq 0 n)).

Definition pad (msg : list Z) : list Z :=
  let len := Z.of_nat (length msg) in
  msg ++ [0x80] ++ repeat 0 (Z.to_nat ((55 - len) mod 64))
      ++ be_bytes 8 (8 * len).

Fixpoint be_words (bs : list Z) : list Z :=
  match bs with
  | a :: b :: c :: d :: rest =>
      Z.lor (Z.lor (Z.shiftl a 24) (Z.shiftl b 16))
            (Z.lor (Z.shiftl c 8) d) :: be_words rest
  | _ => []
  end.

(** The message schedule, kept most recent word first while it grows. *)
Fixpoint expand (n : nat) (rev_w : list Z) : list Z :=
  match n with
  | O => rev_w
  | S n' =>
      let x := Z.lxor (Z.lxor (nth 2 rev_w 0) (nth 7 rev_w 0))
                      (Z.lxor (nth 13 rev_w 0) (nth 15 rev_w 0)) in
      expand n' (rotl 1 x :: rev_w)
  end.

Definition schedule (block : list Z) : list Z :=
  rev (expand 64 (rev (be_words block))).

Definition round (s : state) (tw : nat * Z) : state :=
  let '(t, wt) := tw in
  let temp :=
    add32 (add32 (add32 (add32 (rotl 5 (h0 s)) (f t (h1 s) (h2 s) (h3 s)))
                        (h4 s)) (K t)) wt in
  State temp (h0 s) (rotl 30 (h1 s)) (h2 s) (h3 s).

Definition compress (s : state) (block : list Z) : state :=
  let ws := schedule block in
  let r := fold_left round (combine (seq 0 80) ws) s in
  State (add32 (h0 s) (h0 r)) (add32 (h1 s) (h1 r)) (add32 (h2 s) (h2 r))
        (add32 (h3 s) (h3 r)) (add32 (h4 s) (h4 r)).

Fixpoint blocks (n : nat) (msg : list Z) (s : state) : state :=
  match n with
  | O => s
  | S n' => blocks n' (skipn 64 msg) (compress s (firstn 64 msg))
  end.

Definition digest_bytes (s : state) : list Z :=
  be_bytes 4 (h0 s) ++ be_bytes 4 (h1 s) ++ be_bytes 4 (h2 s)
    ++ be_bytes 4 (h3 s) ++ be_bytes 4 (h4 s).

Definition sha1_bytes (msg : list Z) : list Z :=
  let p := pad msg in
  digest_bytes (blocks (length p / 64) p init).

(** [hashlib.sha1(s).digest()] *)
Definition digest (s : string) : string :=
  Py.str_of_bytes (sha1_bytes (Py.bytes_of_str s)).

End Sha1.

(** ** [base64.urlsafe_b64encode]

    The standard encoding of [binascii.b2a_base64] (without its final line
    break), then the translation to the URL-safe alphabet. *)

Module Base64.

Definition table_b2a : list ascii :=
  list_ascii_of_string
    "ABCDEFGHIJKLMNOPQRSTUVWXYZabcdefghijklmnopqrstuvwxyz0123456789+/".

Definition pad_char : ascii := "="%char.

(** One output character: the table entry of a 6-bit group. *)
Definition b2a (x : Z) : ascii :=
  nth (Z.to_nat (Z.land x 0x3F)) table_b2a pad_char.

Fixpoint b2a_base64 (bs : list Z) : list ascii :=
  match bs with
  | [] => []
  | [a] =>
      [b2a (Z.shiftr a 2); b2a (Z.shiftl a 4); pad_char; pad_char]
  | [a; b] =>
      [b2a (Z.shiftr a 2);
       b2a (Z.lor (Z.shiftl a 4) (Z.shiftr b 4));
       b2a (Z.shiftl b 2); pad_char]
  | a :: b :: c :: rest =>
      b2a (Z.shiftr a 2)
      :: b2a (Z.lor (Z.shiftl a 4) (Z.shiftr b 4))
      :: b2a (Z.lor (Z.shiftl b 2) (Z.shiftr c 6))
      :: b2a c
      :: b2a_base64 rest
  end.

Definition b64encode (s : string) : string :=
  string_of_list_ascii (b2a_base64 (Py.bytes_of_str s)).

(** The translation table of the URL-safe alphabet: [+] to [-] and [/]
    to [_]. *)
Definition urlsafe_translate (c : ascii) : ascii :=
  if Ascii.eqb c "+" then "-"%char
  else if Ascii.eqb c "/" then "_"%char
  else c.

Fixpoint translate (f : ascii -> ascii) (s : string) : string :=
  match s with
  | EmptyString => EmptyString
  | String c s' => String (f c) (translate f s')
  end.

Definition urlsafe_b64encode (s : string) : string :=
  translate urlsafe_translate (b64encode s).

(** The characters of the URL-safe alphabet (padding excluded). *)
Definition is_urlsafe (c : ascii) : bool :=
  let n := N_of_ascii c in
  ((65 <=? n) && (n <=? 90) || (97 <=? n) && (n <=? 122)
   || (48 <=? n) && (n <=? 57) || (n =? 45) || (n =? 95))%N.

Fixpoint all_urlsafe (s : string) : bool :=
  match s with
  | EmptyString => true
  | String c s' => is_urlsafe c && all_urlsafe s'
  end.

End Base64.

(** ** [get_new_id] *)

Module IdGen.

(** The digest of [data], URL-safe base64 encoded and cut to ten
    characters: the expression both assignments to [new_id] share. *)
Definition hash_id (data : string) : string :=
  Py.slice_to 10 (Base64.urlsafe_b64encode (Sha1.digest data)).

Section Loop.
(** The entity class is seen through its only use,
    [entity.get_by_id(new_id)] tested for truth: a lookup in a world
    (the datastore) that answers present or absent and may, as any
    method call, leave the world changed. *)
Context {World : Type}.
Variable get_by_id : string -> World -> bool * World.

(** The [while] loop (lines 140-145).  It has no bound of its own, so the
    embedding counts the checks it may still make: [None] means the checks
    allowed were all answered "present" and the loop is still running. *)
Fixpoint get_new_id_loop (fuel : nat) (entity_name : Py.unicode)
    (seed : nat) (new_id : string) (w : World) : option (string * World) :=
  match fuel with
  | O => None
  | S fuel' =>
      let '(found, w') := get_by_id new_id w in
      if found then
        let seed := S seed in
        let new_id :=
          hash_id (Py.encode_utf8 entity_name ++ Py.str_of_int seed) in
        get_new_id_loop fuel' entity_name seed new_id w'
      else Some (new_id, w')
  end.

(** [get_new_id] (lines 128-146). *)
Definition get_new_id (fuel : nat) (entity_name : Py.unicode) (w : World)
    : option (string * World) :=
  let new_id := hash_id (Py.encode_utf8 entity_name) in
  get_new_id_loop fuel entity_name 0 new_id w.

(** The candidate sequence as the specification words it: candidate 0
    is the truncated hash of the seed name, candidate [j >= 1] the
    truncated hash of the seed name followed by the counter [j]. *)
Definition candidate (name : Py.unicode) (j : nat) : string :=
  match j with
  | O => hash_id (Py.encode_utf8 name)
  | S _ => hash_id (Py.encode_utf8 name ++ Py.str_of_int j)
  end.

(** The world after the first [k] candidates have been checked, and the
    answer to the check of candidate [k]. *)
Fixpoint world_after (name : Py.unicode) (k : nat) (w : World) : World :=
  match k with
  | O => w
  | S k' => snd (get_by_id (candidate name k') (world_after name k' w))
  end.

Definition response (name : Py.unicode) (k : nat) (w : World) : bool :=
  fst (get_by_id (candidate name k) (world_after name k w)).
End Loop.

(** Existence checks used as instances: a datastore holding no entity, one
    in which every identifier is taken, a pure predicate over identifiers,
    and a check that answers "present" to its first [k] calls. *)
Definition always_absent : string -> unit -> bool * unit :=
  fun _ w => (false, w).
Definition always_present : string -> unit -> bool * unit :=
  fun _ w => (true, w).
Definition of_predicate (exists_ : string -> bool)
    : string -> unit -> bool * unit :=
  fun id w => (exists_ id, w).
Definition present_first (k : nat) : string -> nat -> bool * nat :=
  fun _ calls => ((calls <? k)%nat, S calls).

End IdGen.

(** ** Exceptions and outcomes of a call *)

Inductive exn : Type :=
| TemplateSyntaxError (msg : string)
| OtherError (type_name : string) (msg : string)
| EntityIdNotFoundError (fmt : string) (arg : string)
| KeyError (msg : string).

Inductive outcome (A : Type) : Type :=
| Return (a : A)
| Raise (e : exn).
Arguments Return {A} a.
Arguments Raise {A} e.

(** ** The templating engine and [parse_with_jinja] *)

Module Jinja.

(** The engine as [parse_with_jinja] uses it: [Environment().parse],
    [meta.find_undeclared_variables], [Environment().from_string] and
    [Template.render].  Parsing and compiling fail with the message of a
    [TemplateSyntaxError]; rendering may raise anything.  The fields give
    what one call of each does: nothing is said of two renderings of a
    template that draws on the engine's random filter or [lipsum]. *)
Class Engine (Value : Type) := {
  Ast : Type;
  Template : Type;
  parse : string -> string + Ast;
  find_undeclared_variables : Ast -> gset string;
  from_string : string -> string + Template;
  render : Template -> gmap string Value -> exn + string
}.

(** Dictionaries are objects: they live in a store and are passed by
    reference. *)
Abbreviation loc := nat.

(** A call of [logging.info(fmt, string, params)]: the format and its two
    arguments, the dictionary as it is when the call is made. *)
Record log_record (Value : Type) := LogRecord {
  fmt : string;
  arg_string : string;
  arg_params : gmap string Value
}.
Arguments LogRecord {Value} _ _ _.
Arguments fmt {Value} _.
Arguments arg_string {Value} _.
Arguments arg_params {Value} _.

Record store (Value : Type) := Store {
  heap : gmap loc (gmap string Value);
  log : list (log_record Value)
}.
Arguments Store {Value} _ _.
Arguments heap {Value} _.
Arguments log {Value} _.

Section Resolver.
Context {Value : Type} {engine : Engine Value}.

(** [copy.deepcopy(params)]: a new dictionary with the same items
    (the values are immutable).  [None] only on a dangling
    reference, which no Python program holds. *)
Definition deepcopy (params : loc) (s : store Value)
    : option (loc * store Value) :=
  m ← heap s !! params;
  let new_params := fresh (dom (heap s)) in
  Some (new_params, Store (<[new_params := m]> (heap s)) (log s)).

(** The body of [for var in variables]. *)
Definition fill_default (string : string) (params new_params : loc)
    (default : Value) (s : store Value) (var : String.string)
    : option (store Value) :=
  np ← heap s !! new_params;
  match np !! var with
  | Some _ => Some s
  | None =>
      p ← heap s !! params;
      Some (Store (<[new_params := <[var := default]> np]> (heap s))
                  (log s ++ [LogRecord "Cannot parse %s properly using %s"
                                       string p]))
  end.

Fixpoint for_each (body : store Value -> string -> option (store Value))
    (vars : list string) (s : store Value) : option (store Value) :=
  match vars with
  | [] => Some s
  | var :: vars' => s' ← body s var; for_each body vars' s'
  end.

(** [Environment().from_string(string).render(m)] *)
Definition render_string (string : string) (m : gmap String.string Value)
    : outcome String.string :=
  match from_string string with
  | inl msg => Raise (TemplateSyntaxError msg)
  | inr template =>
      match render template m with
      | inl e => Raise e
      | inr out => Return out
      end
  end.

(** [parse_with_jinja] (lines 298-318).  An exception of the engine is not
    caught.  [None] is no outcome of a call: it marks a store in which
    [params] refers to no dictionary. *)
Definition parse_with_jinja (string : string) (params : loc)
    (default : Value) (s : store Value)
    : option (outcome String.string * store Value) :=
  match parse string with
  | inl msg => Some (Raise (TemplateSyntaxError msg), s)
  | inr ast =>
      let variables := find_undeclared_variables ast in
      '(new_params, s1) ← deepcopy params s;
      s2 ← for_each (fill_default string params new_params default)
             (elements variables) s1;
      np ← heap s2 !! new_params;
      Some (render_string string np, s2)
  end.

(** The mapping the specification renders against: the caller's items,
    and the default for every variable they leave out. *)
Definition augmented (m : gmap string Value) (vars : gset string)
    (default : Value) : gmap string Value :=
  m ∪ gset_to_gmap default vars.

(** The variables of the template the caller's mapping leaves out. *)
Definition missing (m : gmap string Value) (vars : gset string)
    : gset string :=
  vars ∖ dom m.
End Resolver.

End Jinja.

(** ** A small engine: one-line templates of text, [{{ name }}] and
    [{{ name.attr.attr }}]

    Enough of the engine to run [parse_with_jinja] on examples: literal
    text, the output of a variable and the output of an attribute of a
    variable, over values that are [str] objects.  Anything else (blocks,
    comments, filters, constants, the engine's global names, the attributes
    a [str] has, line breaks) is outside this fragment and reported as
    such, with a message of its own. *)

Module MiniJinja.

Inductive node : Type :=
| Data (text : string)
| Name (var : string)
| Attribute (var : string) (path : list string).

Inductive lexer : Type :=
| InData (buf : string)
| Brace (buf : string)
| ExprStart
| ExprName (var : string)
| ExprEnd (var : string)
| Closing (var : string)
| Failed (msg : string).

Definition in_range (lo hi c : ascii) : bool :=
  ((N_of_ascii lo <=? N_of_ascii c) && (N_of_ascii c <=? N_of_ascii hi))%N.
Definition is_space (c : ascii) : bool :=
  Ascii.eqb c " " || Ascii.eqb c "009".
Definition is_name_start (c : ascii) : bool :=
  in_range "a" "z" c || in_range "A" "Z" c || Ascii.eqb c "_".
Definition is_name_char (c : ascii) : bool :=
  is_name_start c || in_range "0" "9" c.
Definition is_newline (c : ascii) : bool :=
  Ascii.eqb c "010" || Ascii.eqb c "013".

Definition snoc (s : string) (c : ascii) : string := s ++ String c "".

Definition unsupported : string := "outside the modelled fragment".

Definition reserved : list string :=
  ["true"; "false"; "none"; "True"; "False"; "None"; "and"; "or"; "not";
   "if"; "else"; "in"; "is"; "range"; "dict"; "lipsum"; "cycler";
   "joiner"; "namespace"].

Definition push_data (buf : string) (nodes : list node) : list node :=
  if String.eqb buf "" then nodes else Data buf :: nodes.

(** The attributes of a [str]: on these an attribute lookup finds
    something, which the fragment leaves out. *)
Definition str_attributes : list string :=
  ["capitalize"; "center"; "count"; "decode"; "encode"; "endswith";
   "expandtabs"; "find"; "format"; "index"; "isalnum"; "isalpha";
   "isdigit"; "islower"; "isspace"; "istitle"; "isupper"; "join"; "ljust";
   "lower"; "lstrip"; "partition"; "replace"; "rfind"; "rindex"; "rjust";
   "rpartition"; "rsplit"; "rstrip"; "split"; "splitlines"; "startswith";
   "strip"; "swapcase"; "title"; "translate"; "upper"; "zfill"].

(** The parts of a dotted expression; [cur] is the part being read. *)
Fixpoint split_dots (s : string) (cur : string) : list string :=
  match s with
  | EmptyString => [cur]
  | String c s' =>
      if Ascii.eqb c "." then cur :: split_dots s' ""
      else split_dots s' (snoc cur c)
  end.

(** A name after a dot that no [str] has as an attribute. *)
Definition plain_attribute (a : string) : bool :=
  match a with
  | EmptyString => false
  | String c _ =>
      is_name_start c && negb (Ascii.eqb c "_")
      && negb (existsb (String.eqb a) str_attributes)
  end.

Definition push_name (var : string) (nodes : list node)
    : lexer * list node :=
  match split_dots var "" with
  | [] => (Failed unsupported, nodes)
  | [name] =>
      if existsb (String.eqb name) reserved then (Failed unsupported, nodes)
      else (InData "", Name name :: nodes)
  | name :: path =>
      if existsb (String.eqb name) reserved
         || negb (forallb plain_attribute path)
      then (Failed unsupported, nodes)
      else (InData "", Attribute name path :: nodes)
  end.

(** Whether the expression read so far is one of the fragment. *)
Definition in_fragment (var : string) : bool :=
  match push_name var [] with
  | (Failed _, _) => false
  | _ => true
  end.

Definition unexpected_end_of_template : string :=
  "unexpected 'end of template'".
Definition unexpected_end : string :=
  "unexpected end of template, expected 'end of print statement'.".
Definition unexpected_brace : string := "unexpected '}'".

(** One character of input; the nodes are kept last first. *)
Definition step (st : lexer * list node) (c : ascii) : lexer * list node :=
  let '(l, nodes) := st in
  match l with
  | Failed _ => st
  | InData buf =>
      if is_newline c then (Failed unsupported, nodes)
      else if Ascii.eqb c "{" then (Brace buf, nodes)
      else (InData (snoc buf c), nodes)
  | Brace buf =>
      if Ascii.eqb c "{" then (ExprStart, push_data buf nodes)
      else if Ascii.eqb c "%" || Ascii.eqb c "#" || is_newline c
      then (Failed unsupported, nodes)
      else (InData (snoc (snoc buf "{") c), nodes)
  | ExprStart =>
      if is_space c then (ExprStart, nodes)
      else if is_name_start c then (ExprName (String c ""), nodes)
      else (Failed unsupported, nodes)
  | ExprName var =>
      if is_name_char c || Ascii.eqb c "." then (ExprName (snoc var c), nodes)
      else if is_space c then (ExprEnd var, nodes)
      else if Ascii.eqb c "}" then (Closing var, nodes)
      else (Failed unsupported, nodes)
  | ExprEnd var =>
      if is_space c then (ExprEnd var, nodes)
      else if Ascii.eqb c "}" then (Closing var, nodes)
      else (Failed unsupported, nodes)
  | Closing var =>
      if Ascii.eqb c "}" then push_name var nodes
      else if in_fragment var then (Failed unexpected_brace, nodes)
      else (Failed unsupported, nodes)
  end.

(** The end of the input.  An expression left open is a syntax error: the
    end of the template where an expression is expected, where the end of
    the print statement is expected, or a lone closing brace. *)
Definition finish (st : lexer * list node) : string + list node :=
  let '(l, nodes) := st in
  match l with
  | InData buf => inr (rev (push_data buf nodes))
  | Brace buf => inr (rev (push_data (snoc buf "{") nodes))
  | Failed msg => inl msg
  | ExprStart => inl unexpected_end_of_template
  | ExprName var | ExprEnd var =>
      if in_fragment var then inl unexpected_end else inl unsupported
  | Closing var =>
      if in_fragment var then inl unexpected_brace else inl unsupported
  end.

Definition parse (source : string) : string + list node :=
  finish (fold_left step (list_ascii_of_string source) (InData "", [])).

Fixpoint names (ast : list node) : gset string :=
  match ast with
  | [] => ∅
  | Data _ :: ast' => names ast'
  | Name var :: ast' => {[var]} ∪ names ast'
  | Attribute var _ :: ast' => {[var]} ∪ names ast'
  end.

Definition undefined_error (msg : string) : exn :=
  OtherError "UndefinedError" msg.

(** An unbound name renders as the empty string, as the engine's default
    [Undefined] does, and so does an attribute that a [str] does not have;
    an attribute of either of these is an [UndefinedError]. *)
Definition render_node (n : node) (m : gmap string string) : exn + string :=
  match n with
  | Data text => inr text
  | Name var => inr (default "" (m !! var))
  | Attribute var path =>
      match m !! var with
      | None => inl (undefined_error ("'" ++ var ++ "' is undefined"))
      | Some value =>
          match path with
          | [] => inr value
          | [_] => inr ""
          | attr :: _ :: _ =>
              inl (undefined_error
                     ("'str object' has no attribute '" ++ attr ++ "'"))
          end
      end
  end.

(** The first error ends the rendering. *)
Fixpoint render (ast : list node) (m : gmap string string) : exn + string :=
  match ast with
  | [] => inr ""
  | n :: ast' =>
      match render_node n m with
      | inl e => inl e
      | inr out =>
          match render ast' m with
          | inl e => inl e
          | inr rest => inr (out ++ rest)
          end
      end
  end.

#[global] Instance engine : Jinja.Engine string := {|
  Jinja.Ast := list node;
  Jinja.Template := list node;
  Jinja.parse := parse;
  Jinja.find_undeclared_variables := names;
  Jinja.from_string := parse;
  Jinja.render := render
|}.

(** The store holding one dictionary, at location 0, and an empty log. *)
Definition store_of (m : gmap string string) : Jinja.store string :=
  Jinja.Store {[0%nat := m]} [].

End MiniJinja.

(** ** [get_comma_sep_string_from_list] *)

Module Strings.

(** [sep.join(items)] *)
Fixpoint join (sep : string) (items : list string) : string :=
  match items with
  | [] => ""
  | [x] => x
  | x :: rest => x ++ sep ++ join sep rest
  end.

(** [items[i]] for [i >= 0] and [items[-1]]: [None] stands for the
    [IndexError] of an index out of range. *)
Definition item (items : list string) (i : nat) : option string :=
  items !! i.
Definition last_item (items : list string) : option string :=
  match length items with
  | O => None
  | S n => items !! n
  end.

(** [items[:-1]] *)
Definition but_last (items : list string) : list string :=
  take (length items - 1) items.

(** [get_comma_sep_string_from_list] (lines 321-330). *)
Definition get_comma_sep_string_from_list (items : list string)
    : option string :=
  match items with
  | [] => Some ""
  | _ =>
      if (length items =? 1)%nat then item items 0
      else
        last ← last_item items;
        Some (join ", " (but_last items) ++ " and " ++ last)
  end.

End Strings.

(** ** The datastore and [check_existence_of_name] *)

Module Ndb.

(** The entity classes of the application.  Classes are compared by
    identity: another class may bear the name of [State]. *)
Inductive model_class : Type :=
| Exploration
| AugmentedUser
| Widget
| State
| OtherModel (name : string).

#[global] Instance model_class_eq_dec : EqDecision model_class.
Proof. solve_decision. Defined.

(** [entity.__name__] *)
Definition class_name (entity : model_class) : string :=
  match entity with
  | Exploration => "Exploration"
  | AugmentedUser => "AugmentedUser"
  | Widget => "Widget"
  | State => "State"
  | OtherModel name => name
  end.

(** [s.lower()] on a byte string: the ASCII capitals. *)
Definition lower_char (c : ascii) : ascii :=
  let n := N_of_ascii c in
  if ((65 <=? n) && (n <=? 90))%N then ascii_of_N (n + 32) else c.

Fixpoint lower (s : string) : string :=
  match s with
  | EmptyString => EmptyString
  | String c s' => String (lower_char c) (lower s')
  end.

(** [entity.query(ancestor=...).filter(entity.name == name)] *)
Record query (Key : Type) := Query {
  kind : model_class;
  ancestor_key : option Key;
  name_filter : string
}.
Arguments Query {Key} _ _ _.

(** The datastore with the queries it has been asked, oldest first. *)
Record world (Key Datastore : Type) := World {
  datastore : Datastore;
  queries : list (query Key)
}.
Arguments World {Key Datastore} _ _.
Arguments datastore {Key Datastore} _.
Arguments queries {Key Datastore} _.

Section CheckExistence.
Context {Key Entity Datastore : Type}.
(** [ancestor.key], and the first result of a query ([.get()]). *)
Variable key_of : Entity -> Key.
Variable get : query Key -> Datastore -> option Entity.

Definition run_query (q : query Key) (w : world Key Datastore)
    : option Entity * world Key Datastore :=
  (get q (datastore w), World (datastore w) (queries w ++ [q])).

(** [check_existence_of_name] (lines 69-97); [not name] is the test for
    the empty string, and a query result is true when it is an entity. *)
Definition check_existence_of_name (entity : model_class) (name : string)
    (ancestor : option Entity) (w : world Key Datastore)
    : outcome bool * world Key Datastore :=
  let entity_type := lower (class_name entity) in
  if String.eqb name "" then
    (Raise (EntityIdNotFoundError "No %s name supplied" entity_type), w)
  else
    match ancestor with
    | Some a =>
        let '(found, w') :=
          run_query (Query entity (Some (key_of a)) name) w in
        (Return (bool_decide (is_Some found)), w')
    | None =>
        if decide (entity = State) then
          (Raise (KeyError
                    "Queries for state entities must include ancestors."),
           w)
        else
          let '(found, w') := run_query (Query entity None name) w in
          (Return (bool_decide (is_Some found)), w')
    end.
End CheckExistence.

End Ndb.

(** ** Exceptions with their arguments

    The functions below raise exceptions of more classes than [exn] lists;
    they are kept as the class name and the argument tuple. *)

Module Exc.

Inductive arg : Type :=
| AStr (s : string)
| AUnicode (u : Py.unicode)
| AInt (n : Z).

Record exception := Exception {
  exc_class : string;
  exc_args : list arg
}.

(** The exceptions of [exn], in this form. *)
Definition of_exn (e : exn) : exception :=
  match e with
  | TemplateSyntaxError msg => Exception "TemplateSyntaxError" [AStr msg]
  | OtherError type_name msg => Exception type_name [AStr msg]
  | EntityIdNotFoundError fmt a =>
      Exception "EntityIdNotFoundError" [AStr fmt; AStr a]
  | KeyError msg => Exception "KeyError" [AStr msg]
  end.

(** [except cls:] catches the exceptions of that class. *)
Definition is_a (cls : string) (e : exception) : bool :=
  String.eqb (exc_class e) cls.

End Exc.

(** ** [is_demo_exploration] and [to_string] *)

Module Misc.

(** [is_demo_exploration] (lines 333-336). *)
Definition is_demo_exploration (exploration_id : string) : bool :=
  (String.length exploration_id <? 4)%nat.

Definition is_ascii (cp : N) : bool := (cp <? 128)%N.

(** [to_string] (lines 356-358): [string.encode('ascii', 'ignore')] on a
    text drops the code points the codec cannot encode. *)
Definition to_string (string : Py.unicode) : String.string :=
  string_of_list_ascii
    (map ascii_of_N (List.filter is_ascii string)).

(** The dictionary [enums] of [create_enum] (line 52), which line 53 hands
    to [type] as the namespace of the class it returns (the class itself,
    with what [type] and [object] add to it, is not modelled).
    [dict(zip(sequential, sequential), **names)] sets the zipped pairs in
    order, then the keywords.  [of_str] sees a name as a value. *)
Definition enums {V : Type} (of_str : String.string -> V)
    (sequential : list String.string) (names : gmap String.string V)
    : gmap String.string V :=
  let zipped := zip sequential sequential in
  let from_pairs :=
    fold_left (fun d kv => <[fst kv := of_str (snd kv)]> d) zipped ∅ in
  names ∪ from_pairs.

End Misc.

(** ** [encode_strings_as_ascii] *)

Module Ascii7.

(** The objects the function tells apart, and two it does not: an [int], a
    [set], a [str], a [unicode], a [list], a [dict] (its items in iteration
    order); [None] and tuples stand for every other object. *)
Inductive pyobj : Type :=
| PyNone
| PyInt (n : Z)
| PyStr (s : string)
| PyUnicode (u : Py.unicode)
| PyList (items : list pyobj)
| PyTuple (items : list pyobj)
| PySet (items : list pyobj)
| PyDict (items : list (pyobj * pyobj)).

Fixpoint take_while {A : Type} (p : A -> bool) (l : list A) : list A :=
  match l with
  | x :: l' => if p x then x :: take_while p l' else []
  | [] => []
  end.

(** [str(u)] for a [unicode]: the ASCII codec, strict.  The error names the
    first run of code points out of range. *)
Definition str_of_unicode (u : Py.unicode) : Exc.exception + string :=
  if forallb Misc.is_ascii u then
    inr (string_of_list_ascii (map ascii_of_N u))
  else
    let start := length (take_while Misc.is_ascii u) in
    let run :=
      length (take_while (fun cp => negb (Misc.is_ascii cp)) (drop start u)) in
    inl (Exc.Exception "UnicodeEncodeError"
           [Exc.AStr "ascii"; Exc.AUnicode u; Exc.AInt (Z.of_nat start);
            Exc.AInt (Z.of_nat (start + run));
            Exc.AStr "ordinal not in range(128)"]).

(** Whether an object can be a dictionary key. *)
Fixpoint hashable (obj : pyobj) : bool :=
  match obj with
  | PyList _ | PySet _ | PyDict _ => false
  | PyTuple items => forallb hashable items
  | _ => true
  end.

Definition unhashable : Exc.exception :=
  Exc.Exception "TypeError" [Exc.AStr "unhashable type"].

Section Loops.
Variable encode : pyobj -> Exc.exception + pyobj.

(** [[encode(item) for item in obj]]: the first exception ends it. *)
Fixpoint encode_items (l : list pyobj) : Exc.exception + list pyobj :=
  match l with
  | [] => inr []
  | item :: l' =>
      match encode item with
      | inl e => inl e
      | inr x =>
          match encode_items l' with
          | inl e => inl e
          | inr xs => inr (x :: xs)
          end
      end
  end.

(** [for item in obj: new_dict[encode(item)] = encode(obj[item])]: the value
    is encoded before the key (an assignment evaluates its right-hand side
    first); [new_dict] is kept as the list of its assignments. *)
Fixpoint encode_dict (l : list (pyobj * pyobj))
    (new_dict : list (pyobj * pyobj))
    : Exc.exception + list (pyobj * pyobj) :=
  match l with
  | [] => inr new_dict
  | (item, value) :: l' =>
      match encode value with
      | inl e => inl e
      | inr v =>
          match encode item with
          | inl e => inl e
          | inr k =>
              if hashable k then encode_dict l' (new_dict ++ [(k, v)])%list
              else inl unhashable
          end
      end
  end.
End Loops.

(** [encode_strings_as_ascii] (lines 339-353).  The [dict] branch ends
    without a [return]: the call returns [None]. *)
Fixpoint encode_strings_as_ascii (obj : pyobj) : Exc.exception + pyobj :=
  match obj with
  | PyInt _ | PySet _ => inr obj
  | PyStr s => inr (PyStr s)
  | PyUnicode u =>
      match str_of_unicode u with
      | inl e => inl e
      | inr s => inr (PyStr s)
      end
  | PyList items =>
      match encode_items encode_strings_as_ascii items with
      | inl e => inl e
      | inr xs => inr (PyList xs)
      end
  | PyDict items =>
      match encode_dict encode_strings_as_ascii items [] with
      | inl e => inl e
      | inr new_dict => inr PyNone
      end
  | PyNone | PyTuple _ => inr obj
  end.

(** No [unicode] and no [dict] where the function looks: at the object and
    through lists. *)
Fixpoint plain (obj : pyobj) : bool :=
  match obj with
  | PyUnicode _ | PyDict _ => false
  | PyList items => forallb plain items
  | _ => true
  end.

(** Every [unicode] the function reaches (through lists, dictionary keys and
    values) is ASCII. *)
Fixpoint ascii_reachable (obj : pyobj) : bool :=
  match obj with
  | PyUnicode u => forallb Misc.is_ascii u
  | PyList items => forallb ascii_reachable items
  | PyDict items =>
      forallb (fun kv => ascii_reachable (snd kv) && ascii_reachable (fst kv))
        items
  | _ => true
  end.

(** The dictionaries the function reaches have hashable keys, as every
    dictionary of a Python program has. *)
Fixpoint keys_hashable (obj : pyobj) : bool :=
  match obj with
  | PyList items => forallb keys_hashable items
  | PyDict items =>
      forallb (fun kv => hashable (fst kv) && keys_hashable (fst kv)
                         && keys_hashable (snd kv)) items
  | _ => true
  end.

(** What a reader of the docstring gets on ASCII input: every [unicode]
    reached becomes a [str], and every dictionary reached becomes [None]. *)
Fixpoint expected (obj : pyobj) : pyobj :=
  match obj with
  | PyUnicode u => PyStr (string_of_list_ascii (map ascii_of_N u))
  | PyList items => PyList (map expected items)
  | PyDict _ => PyNone
  | _ => obj
  end.

End Ascii7.

(** ** [get_state_by_name] *)

Module Queries.

Section GetState.
Context {Key Entity Datastore : Type}.
Variable key_of : Entity -> Key.
Variable get : Ndb.query Key -> Datastore -> option Entity.

(** [get_state_by_name] (lines 100-119): the state found, or [None]. *)
Definition get_state_by_name (name : string) (exploration : option Entity)
    (w : Ndb.world Key Datastore)
    : (Exc.exception + option Entity) * Ndb.world Key Datastore :=
  if String.eqb name "" then
    (inl (Exc.Exception "EntityIdNotFoundError"
            [Exc.AStr "No state name supplied"]), w)
  else
    match exploration with
    | None =>
        (inl (Exc.Exception "KeyError"
                [Exc.AStr
                   "Queries for state entities must include explorations."]),
         w)
    | Some e =>
        let '(found, w') :=
          Ndb.run_query get (Ndb.Query Ndb.State (Some (key_of e)) name) w in
        (inr found, w')
    end.
End GetState.

End Queries.

(** ** [get_augmented_user] and [check_can_edit] *)

Module Users.

(** An [AugmentedUser] entity, by the two properties the module uses. *)
Record augmented_user (User Key : Type) := AugmentedUser {
  user : User;
  editable_explorations : list Key
}.
Arguments AugmentedUser {User Key} _ _.
Arguments user {User Key} _.
Arguments editable_explorations {User Key} _.

(** What [check_can_edit] reads of an exploration. *)
Record exploration (Key : Type) := Exploration {
  editors : list string;
  key : Key
}.
Arguments Exploration {Key} _ _.
Arguments editors {Key} _.
Arguments key {Key} _.

(** The datastore, with the entities put into it, oldest first. *)
Record world (User Key Datastore : Type) := World {
  datastore : Datastore;
  puts : list (augmented_user User Key)
}.
Arguments World {User Key Datastore} _ _.
Arguments datastore {User Key Datastore} _.
Arguments puts {User Key Datastore} _.

Section Users.
Context {User Key Datastore : Type} `{EqDecision Key}.
(** [user.email()];
    [AugmentedUser.query().filter(AugmentedUser.user == user).get()];
    [AugmentedUser(user=user)]; the datastore after [entity.put()]. *)
Variable email : User -> string.
Variable find : User -> Datastore -> option (augmented_user User Key).
Variable new : User -> augmented_user User Key.
Variable put : augmented_user User Key -> Datastore -> Datastore.

(** [get_augmented_user] (lines 236-243). *)
Definition get_augmented_user (u : User) (w : world User Key Datastore)
    : augmented_user User Key * world User Key Datastore :=
  match find u (datastore w) with
  | Some found => (found, w)
  | None =>
      let created := new u in
      (created, World (put created (datastore w)) (puts w ++ [created]))
  end.

(** [check_can_edit] (lines 122-125); [or] does not evaluate its second
    operand when the first is true. *)
Definition check_can_edit (u : User) (e : exploration Key)
    (w : world User Key Datastore) : bool * world User Key Datastore :=
  if bool_decide (email u ∈ editors e) then (true, w)
  else
    let '(au, w') := get_augmented_user u w in
    (bool_decide (key e ∈ editable_explorations au), w').
End Users.

(** [l.remove(x)]: the list without the first [x]; [None] stands for the
    [ValueError] raised when there is none. *)
Fixpoint list_remove {A : Type} `{EqDecision A} (x : A) (l : list A)
    : option (list A) :=
  match l with
  | [] => None
  | y :: l' =>
      if decide (x = y) then Some l'
      else l'' ← list_remove x l'; Some (y :: l'')
  end.

(** The datastore operations [delete_exploration] issues. *)
Inductive operation (User Key : Type) : Type :=
| Put (entity : augmented_user User Key)
| Delete (exploration_key : Key).
Arguments Put {User Key} _.
Arguments Delete {User Key} _.

Section Delete.
Context {User Key : Type} `{EqDecision Key}.

(** The body of [for augmented_user in augmented_users], over the entities
    the query yields; the operations issued so far are kept, oldest first,
    and are what an exception leaves behind. *)
Fixpoint remove_from_each (exploration_key : Key)
    (augmented_users : list (augmented_user User Key))
    (ops : list (operation User Key))
    : (Exc.exception + unit) * list (operation User Key) :=
  match augmented_users with
  | [] => (inr tt, ops)
  | au :: rest =>
      match list_remove exploration_key (editable_explorations au) with
      | None =>
          (inl (Exc.Exception "ValueError"
                  [Exc.AStr "list.remove(x): x not in list"]), ops)
      | Some l =>
          remove_from_each exploration_key rest
            (ops ++ [Put (AugmentedUser (user au) l)])%list
      end
  end.

(** [delete_exploration] (lines 287-295), given what the query
    [AugmentedUser.editable_explorations == exploration.key] yields. *)
Definition delete_exploration (exploration_key : Key)
    (augmented_users : list (augmented_user User Key))
    : (Exc.exception + unit) * list (operation User Key) :=
  match remove_from_each exploration_key augmented_users [] with
  | (inl e, ops) => (inl e, ops)
  | (inr _, ops) => (inr tt, (ops ++ [Delete exploration_key])%list)
  end.
End Delete.

End Users.

(** ** [parse_content_into_html] *)

Module Content.

Record content := Content {
  type : string;
  value : string
}.

(** The dictionary handed to the template [content.html]. *)
Inductive context : Type :=
| WidgetContext (type : string) (blockIndex : nat) (index : nat)
| ValueContext (type : string) (value : string).

(** An item of [widget_array]. *)
Record widget_entry := WidgetEntry {
  blockIndex : nat;
  index : nat;
  code : string
}.

(** The local variables of the loop. *)
Record locals := Locals {
  html : string;
  widget_array : list widget_entry;
  widget_counter : nat
}.

Section Parse.
Context {Value : Type} {engine : Jinja.Engine Value}.
(** The default [''] of [parse_with_jinja] as a value;
    [Widget.get(content.value).raw];
    [feconf.JINJA_ENV.get_template('content.html').render(...)]. *)
Variable empty_str : Value.
Variable widget_get : string -> Exc.exception + string.
Variable render_content : context -> Exc.exception + string.

Definition caught (e : Exc.exception) : bool :=
  Exc.is_a "EntityIdNotFoundError" e.

(** The body of [for content in content_array].  In the [try] block the
    counter is incremented once the widget is found, before the template
    is rendered. *)
Definition content_step (block_number : nat) (params : Jinja.loc)
    (c : content) (l : locals) (s : Jinja.store Value)
    : option ((Exc.exception + locals) * Jinja.store Value) :=
  if String.eqb (type c) "widget" then
    match widget_get (value c) with
    | inl e => if caught e then Some (inr l, s) else Some (inl e, s)
    | inr raw =>
        let counter := S (widget_counter l) in
        match render_content (WidgetContext (type c) block_number counter) with
        | inl e =>
            if caught e
            then Some (inr (Locals (html l) (widget_array l) counter), s)
            else Some (inl e, s)
        | inr out =>
            Some (inr (Locals (html l ++ out)
                         (widget_array l
                          ++ [WidgetEntry block_number counter raw])%list
                         counter), s)
        end
    end
  else if existsb (String.eqb (type c)) ["text"; "image"; "video"] then
    if String.eqb (type c) "text" then
      match Jinja.parse_with_jinja (value c) params empty_str s with
      | None => None
      | Some (Raise e, s') => Some (inl (Exc.of_exn e), s')
      | Some (Return v, s') =>
          match render_content (ValueContext (type c) v) with
          | inl e => Some (inl e, s')
          | inr out =>
              Some (inr (Locals (html l ++ out) (widget_array l)
                           (widget_counter l)), s')
          end
      end
    else
      match render_content (ValueContext (type c) (value c)) with
      | inl e => Some (inl e, s)
      | inr out =>
          Some (inr (Locals (html l ++ out) (widget_array l)
                       (widget_counter l)), s)
      end
  else
    Some (inl (Exc.Exception "InvalidInputException"
                 [Exc.AStr "Invalid content type %s"; Exc.AStr (type c)]), s).

Fixpoint content_loop (block_number : nat) (params : Jinja.loc)
    (content_array : list content) (l : locals) (s : Jinja.store Value)
    : option ((Exc.exception + locals) * Jinja.store Value) :=
  match content_array with
  | [] => Some (inr l, s)
  | c :: rest =>
      match content_step block_number params c l s with
      | None => None
      | Some (inl e, s') => Some (inl e, s')
      | Some (inr l', s') => content_loop block_number params rest l' s'
      end
  end.

(** [if params is None: params = {}]: a new, empty dictionary. *)
Definition params_or_empty (params : option Jinja.loc)
    (s : Jinja.store Value) : Jinja.loc * Jinja.store Value :=
  match params with
  | Some p => (p, s)
  | None =>
      let p := fresh (dom (Jinja.heap s)) in
      (p, Jinja.Store (<[p := ∅]> (Jinja.heap s)) (Jinja.log s))
  end.

(** [parse_content_into_html] (lines 180-233). *)
Definition parse_content_into_html (content_array : list content)
    (block_number : nat) (params : option Jinja.loc) (s : Jinja.store Value)
    : option ((Exc.exception + string * list widget_entry)
              * Jinja.store Value) :=
  let '(p, s0) := params_or_empty params s in
  match content_loop block_number p content_array (Locals "" [] 0) s0 with
  | None => None
  | Some (inl e, s') => Some (inl e, s')
  | Some (inr l, s') => Some (inr (html l, widget_array l), s')
  end.

(** A content type the function knows. *)
Definition known_type (c : content) : bool :=
  existsb (String.eqb (type c)) ["widget"; "text"; "image"; "video"].

Definition is_widget (c : content) : bool := String.eqb (type c) "widget".

(** Every dictionary of the first store is in the second, unchanged. *)
Definition kept (s s' : Jinja.store Value) : Prop :=
  forall l d, Jinja.heap s !! l = Some d -> Jinja.heap s' !! l = Some d.

(** The indices of the widgets found so far are 1, 2, ... up to the
    counter, under the block's number. *)
Definition numbered (block_number : nat) (l : locals) : Prop :=
  map index (widget_array l) = seq 1 (widget_counter l)
  /\ Forall (fun w => blockIndex w = block_number) (widget_array l).
End Parse.

End Content.

(** ** Stand-ins to run [parse_content_into_html] on examples: a widget
    store holding the widget [w1] alone, and a template that prints a
    marker for a widget and the value otherwise. *)

Module ContentDemo.

Definition widget_get (widget_id : string) : Exc.exception + string :=
  if String.eqb widget_id "w1" then inr "<b>one</b>"
  else inl (Exc.Exception "EntityIdNotFoundError"
              [Exc.AStr "Widget not found"]).

Definition render_content (ctx : Content.context) : Exc.exception + string :=
  match ctx with
  | Content.WidgetContext _ _ _ => inr "[widget]"
  | Content.ValueContext _ v => inr v
  end.

Definition parse_content_into_html :=
  Content.parse_content_into_html (engine := MiniJinja.engine)
    "" widget_get render_content.

End ContentDemo.

(** * Properties *)

Example sha1_abc :
  Py.bytes_of_str (Sha1.digest "abc") =
  [0xa9; 0x99; 0x3e; 0x36; 0x47; 0x06; 0x81; 0x6a; 0xba; 0x3e;
   0x25; 0x71; 0x78; 0x50; 0xc2; 0x6c; 0x9c; 0xd0; 0xd8; 0x9d].
Proof. vm_compute. reflexivity. Qed.

Example b64_sha1_abc :
  Base64.urlsafe_b64encode (Sha1.digest "abc") = "qZk-NkcGgWq6PiVxeFDCbJzQ2J0=".
Proof. vm_compute. reflexivity. Qed.

Example b64_sha1_empty :
  Base64.urlsafe_b64encode (Sha1.digest "") = "2jmj7l5rSw0yVb_vlWAYkK_YBwk=".
Proof. vm_compute. reflexivity. Qed.

Example b64_sha1_two_blocks :
  Base64.urlsafe_b64encode
    (Sha1.digest (string_of_list_ascii (repeat "a"%char 120)))
  = "80wUiDhTRqVXCboFbd0IKA3UxtY=".
Proof. vm_compute. reflexivity. Qed.

Example b64_sha1_55 :
  Base64.urlsafe_b64encode
    (Sha1.digest (string_of_list_ascii (repeat "a"%char 55)))
  = "wci73CJ5bijA4VFj0giZtlYh1lo=".
Proof. vm_compute. reflexivity. Qed.

Example b64_sha1_56 :
  Base64.urlsafe_b64encode
    (Sha1.digest (string_of_list_ascii (repeat "a"%char 56)))
  = "wtszD2CDhUyZ1LW_tujynyAb5pk=".
Proof. vm_compute. reflexivity. Qed.

Example utf8_ranges :
  map Py.bytes_of_str
    (map (fun cp => Py.encode_utf8 [cp])
       [0x7F; 0x80; 0x7FF; 0x800; 0x20AC; 0xFFFF; 0x10000; 0x1F600]%N)
  = [[0x7F]; [0xC2; 0x80]; [0xDF; 0xBF]; [0xE0; 0xA0; 0x80];
     [0xE2; 0x82; 0xAC]; [0xEF; 0xBF; 0xBF]; [0xF0; 0x90; 0x80; 0x80];
     [0xF0; 0x9F; 0x98; 0x80]].
Proof. vm_compute. reflexivity. Qed.

Example str_of_int_decimal :
  map Py.str_of_int [0; 1; 9; 10; 42; 1000]%nat
  = ["0"; "1"; "9"; "10"; "42"; "1000"].
Proof. vm_compute. reflexivity. Qed.

Example utf8_e_acute :
  Base64.urlsafe_b64encode (Sha1.digest (Py.encode_utf8 [0xE9%N]))
  = "vxW-cXrBsIC08cRWaSgliR_1Bz0=".
Proof. vm_compute. reflexivity. Qed.

(** ** The identifier generator *)

Section Base64Facts.
Import Base64.

Lemma land_0x3F_bound (x : Z) : (Z.to_nat (Z.land x 0x3F) < 64)%nat.
Proof.
  change 0x3F with (Z.ones 6). rewrite Z.land_ones by lia.
  pose proof (Z.mod_pos_bound x (2 ^ 6) ltac:(lia)). lia.
Qed.

Lemma table_urlsafe :
  Forall (fun c => is_urlsafe (urlsafe_translate c) = true) table_b2a.
Proof. repeat constructor. Qed.

Lemma b2a_urlsafe (x : Z) : is_urlsafe (urlsafe_translate (b2a x)) = true.
Proof.
  unfold b2a.
  pose proof (land_0x3F_bound x) as Hlt.
  apply (proj1 (List.Forall_forall _ _) table_urlsafe).
  apply nth_In. exact Hlt.
Qed.
End Base64Facts.

Section HashIdFacts.
Import Base64 IdGen.

(** A digest is twenty bytes, whatever the chaining state. *)
Lemma digest_bytes_length (st : Sha1.state) :
  length (Sha1.digest_bytes st) = 20%nat.
Proof. reflexivity. Qed.

Lemma bytes_of_str_of_bytes_length (bs : list Z) :
  length (Py.bytes_of_str (Py.str_of_bytes bs)) = length bs.
Proof.
  unfold Py.bytes_of_str, Py.str_of_bytes.
  rewrite list_ascii_of_string_of_list_ascii. now rewrite !length_map.
Qed.

Lemma b2a_base64_group (a b c : Z) (rest : list Z) :
  b2a_base64 (a :: b :: c :: rest) =
  b2a (Z.shiftr a 2)
  :: b2a (Z.lor (Z.shiftl a 4) (Z.shiftr b 4))
  :: b2a (Z.lor (Z.shiftl b 2) (Z.shiftr c 6))
  :: b2a c :: b2a_base64 rest.
Proof. reflexivity. Qed.

(** Ten characters of output need nine bytes of input: three full groups,
    so no padding character is among them. *)
Lemma slice_urlsafe_b64 (bs : list Z) :
  (9 <= length bs)%nat ->
  let id := Py.slice_to 10
              (translate urlsafe_translate
                 (string_of_list_ascii (b2a_base64 bs))) in
  String.length id = 10%nat /\ all_urlsafe id = true.
Proof.
  intros Hlen.
  do 9 (destruct bs as [|? bs]; [simpl in Hlen; lia|]).
  rewrite !b2a_base64_group.
  cbn [string_of_list_ascii translate Py.slice_to String.length all_urlsafe].
  rewrite !b2a_urlsafe. split; reflexivity.
Qed.

Lemma hash_id_shape (data : string) :
  String.length (hash_id data) = 10%nat /\ all_urlsafe (hash_id data) = true.
Proof.
  unfold hash_id, urlsafe_b64encode, b64encode, Sha1.digest, Sha1.sha1_bytes.
  apply slice_urlsafe_b64.
  rewrite bytes_of_str_of_bytes_length, digest_bytes_length. lia.
Qed.
End HashIdFacts.

Section LoopFacts.
Import IdGen.
Context {World : Type}.
Variable get_by_id : string -> World -> bool * World.
Variable name : Py.unicode.
Variable w0 : World.

Local Abbreviation loop := (get_new_id_loop get_by_id).
Local Abbreviation cand := (candidate name).
Local Abbreviation after := (world_after get_by_id name).
Local Abbreviation resp := (response get_by_id name).

(** One turn of the loop, started on candidate [j] in the world reached
    after [j] checks. *)
Lemma loop_turn (fuel j : nat) :
  loop (S fuel) name j (cand j) (after j w0) =
  if resp j w0
  then loop fuel name (S j) (cand (S j)) (after (S j) w0)
  else Some (cand j, after (S j) w0).
Proof.
  unfold response. cbn [get_new_id_loop world_after].
  destruct (get_by_id (cand j) (after j w0)) as [found w']; cbn [fst snd].
  destruct found; reflexivity.
Qed.

(** [d] answers "present" followed by one "absent": the loop stops on
    candidate [j + d] as soon as it may make [d + 1] checks. *)
Lemma loop_stops (d : nat) : forall (j fuel : nat),
  (forall i, (j <= i < j + d)%nat -> resp i w0 = true) ->
  resp (j + d)%nat w0 = false ->
  (d < fuel)%nat ->
  loop fuel name j (cand j) (after j w0) =
  Some (cand (j + d)%nat, after (S (j + d)) w0).
Proof.
  induction d as [|d IH]; intros j fuel Hpre Habs Hfuel;
    (destruct fuel as [|fuel]; [lia|]); rewrite loop_turn.
  - rewrite Nat.add_0_r in *. now rewrite Habs.
  - rewrite (Hpre j) by lia.
    replace (j + S d)%nat with (S j + d)%nat in * by lia.
    apply IH; [intros i Hi; apply Hpre; lia | assumption | lia].
Qed.

(** While every answer is "present" the loop is still running. *)
Lemma loop_runs (fuel : nat) : forall j : nat,
  (forall i, (j <= i < j + fuel)%nat -> resp i w0 = true) ->
  loop fuel name j (cand j) (after j w0) = None.
Proof.
  induction fuel as [|fuel IH]; intros j Hpre; [reflexivity|].
  rewrite loop_turn, (Hpre j) by lia.
  apply IH. intros i Hi. apply Hpre. lia.
Qed.

Lemma get_new_id_stops (k fuel : nat) :
  (forall j, (j < k)%nat -> resp j w0 = true) ->
  resp k w0 = false ->
  (k < fuel)%nat ->
  get_new_id get_by_id fuel name w0 = Some (cand k, after (S k) w0).
Proof.
  intros Hpre Habs Hfuel.
  exact (loop_stops k 0 fuel (fun i Hi => Hpre i ltac:(lia)) Habs Hfuel).
Qed.

Lemma get_new_id_runs (fuel : nat) :
  (forall j, (j < fuel)%nat -> resp j w0 = true) ->
  get_new_id get_by_id fuel name w0 = None.
Proof.
  intros Hpre. exact (loop_runs fuel 0 (fun i Hi => Hpre i ltac:(lia))).
Qed.

(** Below any bound, either every answer is "present" or there is a
    first "absent" one. *)
Lemma answers_below (j : nat) :
  (forall i, (i < j)%nat -> resp i w0 = true) \/
  (exists k, (k < j)%nat /\ resp k w0 = false
             /\ forall i, (i < k)%nat -> resp i w0 = true).
Proof.
  induction j as [|j [Hall|(k & Hk & Hrk & Hmin)]].
  - left. intros i Hi. lia.
  - destruct (resp j w0) eqn:E.
    + left. intros i Hi.
      destruct (Nat.eq_dec i j) as [->|Hne]; [assumption | apply Hall; lia].
    + right. exists j. split; [lia|]. split; assumption.
  - right. exists k. split; [lia|]. split; assumption.
Qed.

Lemma first_absent (j : nat) :
  resp j w0 = false ->
  exists k, (k <= j)%nat /\ resp k w0 = false
            /\ forall i, (i < k)%nat -> resp i w0 = true.
Proof.
  intros Habs. destruct (answers_below j) as [Hall|(k & Hk & Hrk & Hmin)].
  - exists j. split; [lia|]. split; assumption.
  - exists k. split; [lia|]. split; assumption.
Qed.
End LoopFacts.

Section CountingCheck.
Import IdGen.

Lemma present_first_world (k : nat) (name : Py.unicode) (j : nat) :
  world_after (present_first k) name j 0%nat = j.
Proof. induction j as [|j IH]; cbn; [reflexivity | now rewrite IH]. Qed.

Lemma present_first_response (k : nat) (name : Py.unicode) (j : nat) :
  response (present_first k) name j 0%nat = (j <? k)%nat.
Proof. unfold response. now rewrite present_first_world. Qed.

(** A pure predicate over identifiers, such as a lookup in a datastore that
    nobody else writes to: the answers are the predicate on the candidates. *)
Lemma of_predicate_response (exists_ : string -> bool) (name : Py.unicode)
    (j : nat) :
  response (of_predicate exists_) name j tt = exists_ (candidate name j).
Proof. reflexivity. Qed.

Lemma of_predicate_world (exists_ : string -> bool) (name : Py.unicode)
    (j : nat) :
  world_after (of_predicate exists_) name j tt = tt.
Proof. now destruct (world_after (of_predicate exists_) name j tt). Qed.

Lemma get_new_id_of_predicate (exists_ : string -> bool) (name : Py.unicode)
    (j : nat) :
  exists_ (candidate name j) = false ->
  exists k,
    (k <= j)%nat
    /\ exists_ (candidate name k) = false
    /\ (forall i, (i < k)%nat -> exists_ (candidate name i) = true)
    /\ forall fuel, (k < fuel)%nat ->
         get_new_id (of_predicate exists_) fuel name tt
         = Some (candidate name k, tt).
Proof.
  intros Habs.
  destruct (first_absent (of_predicate exists_) name tt j Habs)
    as (k & Hk & Hrk & Hmin).
  exists k. repeat split; try assumption.
  intros fuel Hfuel.
  rewrite (get_new_id_stops (of_predicate exists_) name tt k fuel);
    try assumption.
  now rewrite of_predicate_world.
Qed.

Lemma get_new_id_never (name : Py.unicode) (fuel : nat) :
  get_new_id always_present fuel name tt = None.
Proof. apply get_new_id_runs. intros j Hj. reflexivity. Qed.
End CountingCheck.

(** C1.  When the existence check answers "absent" to every identifier, the
    generator returns, after a single check, the first ten characters of
    the URL-safe base64 encoding of the SHA-1 digest of the UTF-8 encoding
    of the seed name; that identifier has exactly ten characters, all of the
    URL-safe alphabet. *)
Theorem get_new_id_all_absent {World : Type}
    (get_by_id : string -> World -> bool * World)
    (n : Py.unicode) (w : World) (fuel : nat) :
  (forall id w', fst (get_by_id id w') = false) ->
  let id := Py.slice_to 10
              (Base64.urlsafe_b64encode (Sha1.digest (Py.encode_utf8 n))) in
  IdGen.get_new_id get_by_id (S fuel) n w = Some (id, snd (get_by_id id w))
  /\ String.length id = 10%nat
  /\ Base64.all_urlsafe id = true.
Proof.
  intros Habs id. split.
  - assert (Hr : IdGen.response get_by_id n 0 w = false) by apply Habs.
    apply (get_new_id_stops get_by_id n w 0 (S fuel)); [intros j Hj|auto|]; lia.
  - apply (hash_id_shape (Py.encode_utf8 n)).
Qed.

Lemma get_new_id_all_absent_witness :
  (forall id w', fst (IdGen.always_absent id w') = false)
  /\ IdGen.get_new_id IdGen.always_absent 1 (Py.unicode_of_ascii "abc") tt
     = Some ("qZk-NkcGgW", tt).
Proof.
  split; [reflexivity|].
  destruct (get_new_id_all_absent IdGen.always_absent
              (Py.unicode_of_ascii "abc") tt 0 (fun _ _ => eq_refl))
    as [Hret _].
  rewrite Hret. vm_compute. reflexivity.
Defined.

(** C2.  When the existence check answers "present" to the first [k]
    candidates and "absent" to the next one, the generator returns
    candidate [k] (the (k+1)-th) of the sequence in which candidate 0 is the
    truncated hash of the seed name and candidate [j >= 1] the truncated
    hash of the seed name followed by the decimal counter [j]; every
    candidate has exactly ten characters of the URL-safe alphabet. *)
Theorem get_new_id_kth_candidate {World : Type}
    (get_by_id : string -> World -> bool * World)
    (n : Py.unicode) (k : nat) (w : World) :
  (forall j, (j < k)%nat -> IdGen.response get_by_id n j w = true) ->
  IdGen.response get_by_id n k w = false ->
  (forall fuel, (k < fuel)%nat ->
     IdGen.get_new_id get_by_id fuel n w =
     Some (IdGen.candidate n k, IdGen.world_after get_by_id n (S k) w))
  /\ IdGen.candidate n 0 = IdGen.hash_id (Py.encode_utf8 n)
  /\ (forall j, (1 <= j)%nat ->
        IdGen.candidate n j =
        IdGen.hash_id (Py.encode_utf8 n ++ Py.str_of_int j))
  /\ (forall j, String.length (IdGen.candidate n j) = 10%nat
                /\ Base64.all_urlsafe (IdGen.candidate n j) = true).
Proof.
  intros Hpre Habs. repeat split.
  - intros fuel Hfuel. now apply get_new_id_stops.
  - intros [|j] Hj; [lia | reflexivity].
  - destruct j; apply hash_id_shape.
  - destruct j; apply hash_id_shape.
Qed.

Lemma get_new_id_kth_candidate_witness :
  (forall j, (j < 2)%nat ->
     IdGen.response (IdGen.present_first 2) (Py.unicode_of_ascii "abc") j 0%nat
     = true)
  /\ IdGen.response (IdGen.present_first 2) (Py.unicode_of_ascii "abc") 2 0%nat
     = false
  /\ IdGen.get_new_id (IdGen.present_first 2) 3 (Py.unicode_of_ascii "abc")
       0%nat = Some ("Ip0CgGOhGQ", 3%nat).
Proof.
  assert (Hpre : forall j, (j < 2)%nat ->
            IdGen.response (IdGen.present_first 2)
              (Py.unicode_of_ascii "abc") j 0%nat = true).
  { intros j Hj. destruct j as [|[|j]]; [reflexivity | reflexivity | lia]. }
  assert (Habs : IdGen.response (IdGen.present_first 2)
                   (Py.unicode_of_ascii "abc") 2 0%nat = false).
  { reflexivity. }
  split; [exact Hpre|]. split; [exact Habs|].
  destruct (get_new_id_kth_candidate (IdGen.present_first 2)
              (Py.unicode_of_ascii "abc") 2 0%nat Hpre Habs) as [Hret _].
  rewrite (Hret 3%nat) by lia. vm_compute. reflexivity.
Defined.

(** C7.  If the existence check answers "absent" to at least one candidate
    of the sequence, the generator terminates: there is a first such
    candidate, the loop returns it as soon as it is allowed one check more
    than the candidates before it, and it is still running before that.
    The loop has no iteration cap: for every bound there is an existence
    check under which the loop outlasts the bound and still returns, and
    under a check that always answers "present" it never returns. *)
Theorem get_new_id_terminates_uncapped {World : Type}
    (get_by_id : string -> World -> bool * World)
    (n : Py.unicode) (w : World) :
  (exists j, IdGen.response get_by_id n j w = false) ->
  (exists k,
     IdGen.response get_by_id n k w = false
     /\ (forall i, (i < k)%nat -> IdGen.response get_by_id n i w = true)
     /\ (forall fuel, (k < fuel)%nat ->
           IdGen.get_new_id get_by_id fuel n w =
           Some (IdGen.candidate n k, IdGen.world_after get_by_id n (S k) w))
     /\ (forall fuel, (fuel <= k)%nat ->
           IdGen.get_new_id get_by_id fuel n w = None))
  /\ (forall cap : nat,
        IdGen.get_new_id (IdGen.present_first cap) cap n 0%nat = None
        /\ IdGen.get_new_id (IdGen.present_first cap) (S cap) n 0%nat
           = Some (IdGen.candidate n cap, S cap))
  /\ (forall fuel : nat,
        IdGen.get_new_id IdGen.always_present fuel n tt = None).
Proof.
  intros [j Hj]. split; [|split; [|intros fuel; apply get_new_id_never]].
  - destruct (first_absent get_by_id n w j Hj) as (k & _ & Hk & Hmin).
    exists k. repeat split; [assumption | assumption | |].
    + intros fuel Hfuel. now apply get_new_id_stops.
    + intros fuel Hfuel. apply get_new_id_runs.
      intros i Hi. apply Hmin. lia.
  - intros cap. split.
    + apply get_new_id_runs. intros i Hi.
      rewrite present_first_response. now apply Nat.ltb_lt.
    + rewrite (get_new_id_stops (IdGen.present_first cap) n 0%nat cap (S cap)).
      * now rewrite present_first_world.
      * intros i Hi. rewrite present_first_response. now apply Nat.ltb_lt.
      * rewrite present_first_response. apply Nat.ltb_irrefl.
      * lia.
Qed.

Lemma get_new_id_terminates_uncapped_witness :
  (exists j,
     IdGen.response (IdGen.present_first 1) (Py.unicode_of_ascii "abc") j 0%nat
     = false)
  /\ IdGen.get_new_id (IdGen.present_first 1) 1 (Py.unicode_of_ascii "abc")
       0%nat = None
  /\ IdGen.get_new_id (IdGen.present_first 1) 2 (Py.unicode_of_ascii "abc")
       0%nat = Some ("nuA2KHtM-8", 2%nat).
Proof.
  assert (Hex : exists j,
            IdGen.response (IdGen.present_first 1)
              (Py.unicode_of_ascii "abc") j 0%nat = false).
  { exists 1%nat. reflexivity. }
  split; [exact Hex|].
  destruct (get_new_id_terminates_uncapped (IdGen.present_first 1)
              (Py.unicode_of_ascii "abc") 0%nat Hex) as (_ & Hcap & _).
  destruct (Hcap 1%nat) as [Hrun Hret].
  split; [exact Hrun|]. rewrite Hret. vm_compute. reflexivity.
Defined.

(** C8.  The generator is deterministic: two existence checks that give the
    same sequence of answers on the candidates of a seed name lead to the
    same outcome for every number of checks allowed, and any two returned
    identifiers are equal. *)
Theorem get_new_id_deterministic {World1 World2 : Type}
    (check1 : string -> World1 -> bool * World1)
    (check2 : string -> World2 -> bool * World2)
    (n : Py.unicode) (w1 : World1) (w2 : World2) :
  (forall j, IdGen.response check1 n j w1 = IdGen.response check2 n j w2) ->
  (forall fuel,
     fst <$> IdGen.get_new_id check1 fuel n w1 =
     fst <$> IdGen.get_new_id check2 fuel n w2)
  /\ (forall fuel1 fuel2 id1 id2 w1' w2',
        IdGen.get_new_id check1 fuel1 n w1 = Some (id1, w1') ->
        IdGen.get_new_id check2 fuel2 n w2 = Some (id2, w2') ->
        id1 = id2).
Proof.
  intros Hsame.
  assert (Hout : forall fuel,
            (IdGen.get_new_id check1 fuel n w1 = None
             /\ IdGen.get_new_id check2 fuel n w2 = None)
            \/ (exists k,
                  (forall i, (i < k)%nat -> IdGen.response check1 n i w1 = true)
                  /\ IdGen.response check1 n k w1 = false
                  /\ IdGen.get_new_id check1 fuel n w1 =
                     Some (IdGen.candidate n k,
                           IdGen.world_after check1 n (S k) w1)
                  /\ IdGen.get_new_id check2 fuel n w2 =
                     Some (IdGen.candidate n k,
                           IdGen.world_after check2 n (S k) w2))).
  { intros fuel.
    destruct (answers_below check1 n w1 fuel) as [Hall|(k & Hk & Hrk & Hmin)].
    - left. split; apply get_new_id_runs; [assumption|].
      intros j Hj. rewrite <- Hsame. now apply Hall.
    - right. exists k. repeat split; try assumption.
      + now apply get_new_id_stops.
      + apply get_new_id_stops; [|now rewrite <- Hsame|assumption].
        intros j Hj. rewrite <- Hsame. now apply Hmin. }
  split.
  - intros fuel.
    destruct (Hout fuel) as [[-> ->]|(k & _ & _ & -> & ->)]; reflexivity.
  - intros fuel1 fuel2 id1 id2 w1' w2' H1 H2.
    destruct (Hout fuel1) as [[E _]|(k1 & Hm1 & Hk1 & E1 & _)]; [congruence|].
    destruct (Hout fuel2) as [[_ E]|(k2 & Hm2 & Hk2 & _ & E2)]; [congruence|].
    assert (k1 = k2) as ->.
    { destruct (Nat.lt_trichotomy k1 k2) as [Hlt|[Heq|Hlt]]; [|assumption|].
      - rewrite (Hm2 k1 Hlt) in Hk1. discriminate.
      - rewrite (Hm1 k2 Hlt) in Hk2. discriminate. }
    congruence.
Qed.

Lemma get_new_id_deterministic_witness :
  (forall j,
     IdGen.response IdGen.always_absent (Py.unicode_of_ascii "abc") j tt =
     IdGen.response (IdGen.present_first 0) (Py.unicode_of_ascii "abc") j 0%nat)
  /\ fst <$> IdGen.get_new_id IdGen.always_absent 1
               (Py.unicode_of_ascii "abc") tt
     = fst <$> IdGen.get_new_id (IdGen.present_first 0) 1
                 (Py.unicode_of_ascii "abc") 0%nat.
Proof.
  assert (Hsame : forall j,
            IdGen.response IdGen.always_absent (Py.unicode_of_ascii "abc") j tt
            = IdGen.response (IdGen.present_first 0)
                (Py.unicode_of_ascii "abc") j 0%nat).
  { intros j. reflexivity. }
  split; [exact Hsame|].
  exact (proj1 (get_new_id_deterministic IdGen.always_absent
                  (IdGen.present_first 0) (Py.unicode_of_ascii "abc") tt 0%nat
                  Hsame) 1%nat).
Defined.

Example mini_hello :
  Jinja.parse_with_jinja "Hello {{ name }}" 0%nat ""
    (MiniJinja.store_of {["name" := "World"]})
  = Some (Return "Hello World",
          Jinja.Store {[0%nat := {["name" := "World"]};
                        1%nat := {["name" := "World"]}]} []).
Proof. vm_compute. reflexivity. Qed.

(** ** The template resolver *)

Section ResolverFacts.
Import Jinja.
Context {Value : Type} {engine : Engine Value}.

Lemma deepcopy_fresh (params : loc) (s : store Value)
    (m : gmap string Value) :
  heap s !! params = Some m ->
  deepcopy params s =
  Some (fresh (dom (heap s)),
        Store (<[fresh (dom (heap s)) := m]> (heap s)) (log s))
  /\ fresh (dom (heap s)) <> params.
Proof.
  intros Hp. unfold deepcopy. rewrite Hp. split; [reflexivity|].
  intros Heq. apply (is_fresh (dom (heap s))).
  rewrite Heq. apply elem_of_dom. eauto.
Qed.

Lemma augmented_lookup (m : gmap string Value) (vars : gset string)
    (default : Value) (k : string) :
  augmented m vars default !! k =
  match m !! k with
  | Some v => Some v
  | None => if decide (k ∈ vars) then Some default else None
  end.
Proof.
  unfold augmented. rewrite lookup_union, lookup_gset_to_gmap.
  destruct (m !! k) as [v|]; [now rewrite union_Some_l|].
  rewrite (left_id None union).
  unfold guard. destruct (decide (k ∈ vars)); reflexivity.
Qed.

Lemma augmented_skip (m : gmap string Value) (vars : gset string)
    (default : Value) (var : string) :
  is_Some (m !! var) ->
  augmented m ({[var]} ∪ vars) default = augmented m vars default.
Proof.
  intros [v Hv]. apply map_eq. intros k. rewrite !augmented_lookup.
  destruct (m !! k) as [x|] eqn:Hk; [reflexivity|].
  assert (k <> var) by congruence.
  repeat case_decide; set_solver.
Qed.

Lemma augmented_insert (m : gmap string Value) (vars : gset string)
    (default : Value) (var : string) :
  m !! var = None ->
  augmented (<[var := default]> m) vars default =
  augmented m ({[var]} ∪ vars) default.
Proof.
  intros Hv. apply map_eq. intros k. rewrite !augmented_lookup.
  destruct (decide (k = var)) as [->|Hne].
  - rewrite lookup_insert_eq, Hv. case_decide; [reflexivity | set_solver].
  - rewrite lookup_insert_ne by congruence.
    destruct (m !! k); [reflexivity|]. repeat case_decide; set_solver.
Qed.

Lemma missing_skip (m : gmap string Value) (vars : gset string)
    (var : string) :
  is_Some (m !! var) -> missing m ({[var]} ∪ vars) = missing m vars.
Proof.
  intros Hv. apply elem_of_dom in Hv. unfold missing. set_solver.
Qed.

Lemma missing_insert_size (m : gmap string Value) (vars : gset string)
    (default : Value) (var : string) :
  m !! var = None -> var ∉ vars ->
  size (missing m ({[var]} ∪ vars)) =
  S (size (missing (<[var := default]> m) vars)).
Proof.
  intros Hv Hnew. apply not_elem_of_dom in Hv. unfold missing.
  rewrite dom_insert_L.
  replace (({[var]} ∪ vars) ∖ dom m)
    with ({[var]} ∪ vars ∖ ({[var]} ∪ dom m)) by set_solver.
  rewrite size_union by set_solver. now rewrite size_singleton.
Qed.

Lemma fill_default_step (string : string) (params new_params : loc)
    (default : Value) (s : store Value) (var : String.string)
    (m np : gmap String.string Value) :
  heap s !! params = Some m ->
  heap s !! new_params = Some np ->
  fill_default string params new_params default s var =
  Some (match np !! var with
        | Some _ => s
        | None =>
            Store (<[new_params := <[var := default]> np]> (heap s))
                  (log s ++ [LogRecord "Cannot parse %s properly using %s"
                                       string m])
        end).
Proof.
  intros Hp Hnp. unfold fill_default. rewrite Hnp. cbn.
  destruct (np !! var); [reflexivity|]. rewrite Hp. reflexivity.
Qed.

(** The loop over the variables, in whatever order the set yields them:
    the working copy ends up as the augmented mapping, with one record
    logged per variable that was missing; no other dictionary changes. *)
Lemma for_each_fill (string : string) (params new_params : loc)
    (default : Value) (m : gmap String.string Value)
    (vars : list String.string) :
  params <> new_params -> NoDup vars ->
  forall (s : store Value) (np : gmap String.string Value),
    heap s !! params = Some m ->
    heap s !! new_params = Some np ->
    for_each (fill_default string params new_params default) vars s =
    Some (Store
            (<[new_params := augmented np (list_to_set vars) default]>
               (heap s))
            (log s ++
             replicate (size (missing np (list_to_set vars)))
               (LogRecord "Cannot parse %s properly using %s" string m))).
Proof.
  intros Hne Hnd. induction Hnd as [|var vars Hnew Hnd IH];
    intros s np Hp Hnp; cbn [for_each list_to_set].
  - unfold augmented, missing. rewrite gset_to_gmap_empty.
    rewrite (right_id ∅ union), insert_id by assumption.
    replace (∅ ∖ dom np : gset String.string) with (∅ : gset String.string)
      by set_solver.
    rewrite size_empty. cbn. rewrite app_nil_r. now destruct s.
  - rewrite (fill_default_step _ _ _ _ _ _ m np Hp Hnp).
    cbn [mbind option_bind].
    destruct (np !! var) as [v|] eqn:Hvar.
    + rewrite (IH s np Hp Hnp).
      rewrite augmented_skip, missing_skip by eauto. reflexivity.
    + rewrite (IH _ (<[var := default]> np)); cbn [heap log].
      * rewrite insert_insert_eq, augmented_insert by assumption.
        rewrite (missing_insert_size np _ default) by
          (try assumption; now rewrite elem_of_list_to_set).
        rewrite <- app_assoc. reflexivity.
      * rewrite lookup_insert_ne by congruence. assumption.
      * apply lookup_insert_eq.
Qed.

(** What a call does once the template parses. *)
Lemma parse_with_jinja_parsed (string : string) (params : loc)
    (default : Value) (s : store Value) (m : gmap String.string Value)
    (ast : Ast) :
  heap s !! params = Some m ->
  parse string = inr ast ->
  let vars := find_undeclared_variables ast in
  parse_with_jinja string params default s =
  Some (render_string string (augmented m vars default),
        Store (<[fresh (dom (heap s)) := augmented m vars default]> (heap s))
              (log s ++
               replicate (size (missing m vars))
                 (LogRecord "Cannot parse %s properly using %s" string m))).
Proof.
  intros Hp Hparse vars. unfold parse_with_jinja. rewrite Hparse.
  destruct (deepcopy_fresh params s m Hp) as [-> Hne].
  cbn [mbind option_bind].
  rewrite (for_each_fill string params _ default m (elements vars)
             (not_eq_sym Hne) (NoDup_elements vars) _ m);
    cbn [heap log].
  - rewrite list_to_set_elements_L, insert_insert_eq.
    cbn [mbind option_bind heap]. rewrite lookup_insert_eq. reflexivity.
  - rewrite lookup_insert_ne by assumption. assumption.
  - apply lookup_insert_eq.
Qed.
End ResolverFacts.

(** C3, as the code has it.  For a template that parses, the resolver
    hands the engine the caller's mapping augmented with the default for
    every undeclared variable the mapping leaves out, and its outcome is the
    outcome of that rendering.  No undeclared variable is missing from the
    mapping: the caller's items are kept, the variables left out are bound
    to the default, and nothing else is bound.  The resolver returns the
    rendered string when the engine renders the template against that
    mapping, and raises the engine's exception when it does not. *)
Theorem parse_with_jinja_fills_defaults {Value : Type}
    {engine : Jinja.Engine Value}
    (string : string) (params : Jinja.loc) (default : Value)
    (s : Jinja.store Value) (m : gmap String.string Value)
    (ast : Jinja.Ast) :
  Jinja.heap s !! params = Some m ->
  Jinja.parse string = inr ast ->
  let vars := Jinja.find_undeclared_variables ast in
  let filled := Jinja.augmented m vars default in
  (exists s',
     Jinja.parse_with_jinja string params default s =
     Some (Jinja.render_string string filled, s'))
  /\ vars ⊆ dom filled
  /\ (forall k v, m !! k = Some v -> filled !! k = Some v)
  /\ (forall k, m !! k = None -> k ∈ vars -> filled !! k = Some default)
  /\ (forall k, m !! k = None -> k ∉ vars -> filled !! k = None)
  /\ (forall template out,
        Jinja.from_string string = inr template ->
        Jinja.render template filled = inr out ->
        exists s',
          Jinja.parse_with_jinja string params default s =
          Some (Return out, s'))
  /\ (forall template e,
        Jinja.from_string string = inr template ->
        Jinja.render template filled = inl e ->
        exists s',
          Jinja.parse_with_jinja string params default s =
          Some (Raise e, s')).
Proof.
  intros Hp Hparse vars filled.
  assert (Hbound : vars ⊆ dom filled).
  { intros k Hk. apply elem_of_dom. unfold filled.
    rewrite augmented_lookup. destruct (m !! k); [eauto|].
    rewrite decide_True by assumption. eauto. }
  split; [|split; [|split; [|split; [|split; [|split]]]]];
    [| exact Hbound | | | | |].
  - eexists. apply (parse_with_jinja_parsed string params default s m ast);
      assumption.
  - intros k v Hk. unfold filled. now rewrite augmented_lookup, Hk.
  - intros k Hk Hin. unfold filled.
    rewrite augmented_lookup, Hk. now rewrite decide_True.
  - intros k Hk Hout. unfold filled.
    rewrite augmented_lookup, Hk. now rewrite decide_False.
  - intros template out Hfrom Hout. eexists.
    rewrite (parse_with_jinja_parsed string params default s m ast Hp Hparse).
    unfold Jinja.render_string. fold vars. fold filled.
    rewrite Hfrom, Hout. reflexivity.
  - intros template e Hfrom He. eexists.
    rewrite (parse_with_jinja_parsed string params default s m ast Hp Hparse).
    unfold Jinja.render_string. fold vars. fold filled.
    rewrite Hfrom, He. reflexivity.
Qed.

Lemma parse_with_jinja_fills_defaults_witness :
  Jinja.heap (MiniJinja.store_of {["a" := "X"]}) !! 0%nat
  = Some ({["a" := "X"]} : gmap string string)
  /\ Jinja.parse "{{ a }} and {{ b }}"
     = inr [MiniJinja.Name "a"; MiniJinja.Data " and "; MiniJinja.Name "b"]
  /\ exists s',
       Jinja.parse_with_jinja "{{ a }} and {{ b }}" 0%nat "?"
         (MiniJinja.store_of {["a" := "X"]})
       = Some (Return "X and ?", s').
Proof.
  split; [reflexivity|]. split; [reflexivity|].
  destruct (@parse_with_jinja_fills_defaults string MiniJinja.engine
              "{{ a }} and {{ b }}" 0%nat "?"
              (MiniJinja.store_of {["a" := "X"]}) {["a" := "X"]}
              [MiniJinja.Name "a"; MiniJinja.Data " and "; MiniJinja.Name "b"]
              eq_refl eq_refl) as [[s' Hs'] _].
  exists s'. rewrite Hs'. vm_compute. reflexivity.
Defined.

(** C3 as stated fails: [{{ a.b.c }}] is a well-formed template whose only
    undeclared variable is [a]; with an empty mapping the resolver binds
    [a] to the default [''], and the rendering still raises
    [UndefinedError], this string having no attribute [b].  No string is
    returned. *)
Lemma resolver_raises_with_every_variable_bound :
  Jinja.parse "{{ a.b.c }}" = inr [MiniJinja.Attribute "a" ["b"; "c"]]
  /\ MiniJinja.names [MiniJinja.Attribute "a" ["b"; "c"]] = {["a"]}
  /\ Jinja.parse_with_jinja "{{ a.b.c }}" 0%nat "" (MiniJinja.store_of ∅)
     = Some (Raise (OtherError "UndefinedError"
                      "'str object' has no attribute 'b'"),
             Jinja.Store {[0%nat := ∅; 1%nat := {["a" := ""]}]}
               [Jinja.LogRecord "Cannot parse %s properly using %s"
                  "{{ a.b.c }}" ∅])
  /\ forall out s',
       Jinja.parse_with_jinja "{{ a.b.c }}" 0%nat "" (MiniJinja.store_of ∅)
       <> Some (Return out, s').
Proof.
  assert (Hcall :
    Jinja.parse_with_jinja "{{ a.b.c }}" 0%nat "" (MiniJinja.store_of ∅)
    = Some (Raise (OtherError "UndefinedError"
                     "'str object' has no attribute 'b'"),
            Jinja.Store {[0%nat := ∅; 1%nat := {["a" := ""]}]}
              [Jinja.LogRecord "Cannot parse %s properly using %s"
                 "{{ a.b.c }}" ∅])) by (vm_compute; reflexivity).
  split; [reflexivity|]. split; [vm_compute; reflexivity|].
  split; [exact Hcall|].
  intros out s'. rewrite Hcall. discriminate.
Qed.

Example mini_attribute_of_default :
  Jinja.parse_with_jinja "{{ a.b }}!" 0%nat "" (MiniJinja.store_of ∅)
  = Some (Return "!",
          Jinja.Store {[0%nat := ∅; 1%nat := {["a" := ""]}]}
            [Jinja.LogRecord "Cannot parse %s properly using %s"
               "{{ a.b }}!" ∅]).
Proof. vm_compute. reflexivity. Qed.

(** C4, as the code has it.  For a template that parses, the resolver logs
    exactly one record per undeclared variable missing from the mapping,
    after the records already there; each record holds the template text
    and the caller's original mapping (it does not hold the variable's
    name). *)
Theorem parse_with_jinja_logs_each_missing {Value : Type}
    {engine : Jinja.Engine Value}
    (string : string) (params : Jinja.loc) (default : Value)
    (s : Jinja.store Value) (m : gmap String.string Value)
    (ast : Jinja.Ast) :
  Jinja.heap s !! params = Some m ->
  Jinja.parse string = inr ast ->
  exists r s',
    Jinja.parse_with_jinja string params default s = Some (r, s')
    /\ Jinja.log s' =
       (Jinja.log s ++
        replicate
          (size (Jinja.missing m (Jinja.find_undeclared_variables ast)))
          (Jinja.LogRecord "Cannot parse %s properly using %s" string m))%list.
Proof.
  intros Hp Hparse. do 2 eexists. split.
  - apply (parse_with_jinja_parsed string params default s m ast);
      assumption.
  - reflexivity.
Qed.

Lemma parse_with_jinja_logs_each_missing_witness :
  Jinja.heap (MiniJinja.store_of ∅) !! 0%nat = Some (∅ : gmap string string)
  /\ Jinja.parse "Hello {{ name }}"
     = inr [MiniJinja.Data "Hello "; MiniJinja.Name "name"]
  /\ exists s',
       Jinja.parse_with_jinja "Hello {{ name }}" 0%nat ""
         (MiniJinja.store_of ∅) = Some (Return "Hello ", s')
       /\ Jinja.log s' =
          [Jinja.LogRecord "Cannot parse %s properly using %s"
             "Hello {{ name }}" ∅].
Proof.
  split; [reflexivity|]. split; [reflexivity|].
  destruct (@parse_with_jinja_logs_each_missing string MiniJinja.engine
              "Hello {{ name }}" 0%nat ""
              (MiniJinja.store_of ∅) ∅
              [MiniJinja.Data "Hello "; MiniJinja.Name "name"]
              eq_refl eq_refl) as (r & s' & Hcall & Hlog).
  exists s'. split.
  - rewrite Hcall. f_equal. f_equal.
    assert (Hr : Jinja.parse_with_jinja "Hello {{ name }}" 0%nat ""
                   (MiniJinja.store_of ∅)
                 = Some (Return "Hello ",
                         Jinja.Store {[0%nat := ∅; 1%nat := {["name" := ""]}]}
                           [Jinja.LogRecord "Cannot parse %s properly using %s"
                              "Hello {{ name }}" ∅]))
      by (vm_compute; reflexivity).
    rewrite Hr in Hcall. congruence.
  - rewrite Hlog. vm_compute. reflexivity.
Defined.

(** C4 as stated fails: two distinct missing variables give two identical
    records, so no reading of a record yields the variable it was logged
    for. *)
Lemma diagnostics_do_not_name_the_variable :
  exists s' r,
    Jinja.parse_with_jinja "{{ a }} and {{ b }}" 0%nat ""
      (MiniJinja.store_of ∅) = Some (Return " and ", s')
    /\ elements (Jinja.missing (∅ : gmap string string)
                   (MiniJinja.names
                      [MiniJinja.Name "a"; MiniJinja.Data " and ";
                       MiniJinja.Name "b"])) ≡ₚ ["a"; "b"]
    /\ Jinja.log s' = [r; r]
    /\ r = Jinja.LogRecord "Cannot parse %s properly using %s"
             "{{ a }} and {{ b }}" ∅
    /\ forall name_of : Jinja.log_record string -> string,
         ~ (map name_of (Jinja.log s') ≡ₚ ["a"; "b"]).
Proof.
  eexists. eexists. split; [vm_compute; reflexivity|].
  split.
  { replace (Jinja.missing (∅ : gmap string string)
               (MiniJinja.names
                  [MiniJinja.Name "a"; MiniJinja.Data " and ";
                   MiniJinja.Name "b"]))
      with ({["a"; "b"]} : gset string) by (vm_compute; reflexivity).
    rewrite elements_union_singleton by set_solver.
    now rewrite elements_singleton. }
  split; [reflexivity|]. split; [reflexivity|].
  intros name_of Hperm. cbn [Jinja.log map] in Hperm.
  set (x := name_of _) in Hperm.
  assert (Ha : "a" ∈ [x; x]) by (rewrite Hperm; set_solver).
  assert (Hb : "b" ∈ [x; x]) by (rewrite Hperm; set_solver).
  apply list_elem_of_In in Ha, Hb. cbn in Ha, Hb.
  assert (Hab : "a" = "b") by (destruct Ha as [<-|[<-|[]]];
                               destruct Hb as [Hb|[Hb|[]]]; exact Hb).
  discriminate Hab.
Qed.

(** C5.  When the engine rejects the template text, the resolver raises the
    engine's syntax error as it is, before touching the store; it returns no
    string, empty or not. *)
Theorem parse_with_jinja_syntax_error {Value : Type}
    {engine : Jinja.Engine Value}
    (string : string) (params : Jinja.loc) (default : Value)
    (s : Jinja.store Value) (msg : String.string) :
  Jinja.parse string = inl msg ->
  Jinja.parse_with_jinja string params default s =
  Some (Raise (TemplateSyntaxError msg), s)
  /\ forall out s',
       Jinja.parse_with_jinja string params default s <> Some (Return out, s').
Proof.
  intros Hparse. unfold Jinja.parse_with_jinja. rewrite Hparse.
  split; [reflexivity | intros out s'; discriminate].
Qed.

Lemma parse_with_jinja_syntax_error_witness :
  Jinja.parse "Hello {{ name" = inl MiniJinja.unexpected_end
  /\ Jinja.parse_with_jinja "Hello {{ name" 0%nat ""
       (MiniJinja.store_of {["name" := "World"]})
     = Some (Raise (TemplateSyntaxError MiniJinja.unexpected_end),
             MiniJinja.store_of {["name" := "World"]}).
Proof.
  split; [reflexivity|].
  exact (proj1 (@parse_with_jinja_syntax_error string MiniJinja.engine
                  "Hello {{ name" 0%nat ""
                  (MiniJinja.store_of {["name" := "World"]})
                  MiniJinja.unexpected_end eq_refl)).
Defined.

(** C6.  A call never changes the caller's mapping: whatever the template
    and the default, the call completes (by returning or by raising) in a
    store where the dictionary passed in, and every other dictionary there
    was, holds what it held before. *)
Theorem parse_with_jinja_preserves_params {Value : Type}
    {engine : Jinja.Engine Value}
    (string : string) (params : Jinja.loc) (default : Value)
    (s : Jinja.store Value) (m : gmap String.string Value) :
  Jinja.heap s !! params = Some m ->
  exists r s',
    Jinja.parse_with_jinja string params default s = Some (r, s')
    /\ Jinja.heap s' !! params = Some m
    /\ forall l d, Jinja.heap s !! l = Some d -> Jinja.heap s' !! l = Some d.
Proof.
  intros Hp. destruct (Jinja.parse string) as [msg|ast] eqn:Hparse.
  - exists (Raise (TemplateSyntaxError msg)), s.
    unfold Jinja.parse_with_jinja. rewrite Hparse. auto.
  - do 2 eexists. split.
    + apply (parse_with_jinja_parsed string params default s m ast);
        assumption.
    + assert (Hkeep : forall l d, Jinja.heap s !! l = Some d ->
                <[fresh (dom (Jinja.heap s)) :=
                    Jinja.augmented m (Jinja.find_undeclared_variables ast)
                      default]> (Jinja.heap s) !! l = Some d).
      { intros l d Hl. rewrite lookup_insert_ne; [assumption|].
        intros Heq. apply (is_fresh (dom (Jinja.heap s))).
        rewrite Heq. apply elem_of_dom. eauto. }
      split; [apply Hkeep; assumption | exact Hkeep].
Qed.

Lemma parse_with_jinja_preserves_params_witness :
  Jinja.heap (MiniJinja.store_of {["a" := "X"]}) !! 0%nat
  = Some ({["a" := "X"]} : gmap string string)
  /\ exists r s',
       Jinja.parse_with_jinja "{{ a }} and {{ b }}" 0%nat "?"
         (MiniJinja.store_of {["a" := "X"]}) = Some (r, s')
       /\ Jinja.heap s' !! 0%nat = Some ({["a" := "X"]} : gmap string string).
Proof.
  split; [reflexivity|].
  destruct (@parse_with_jinja_preserves_params string MiniJinja.engine
              "{{ a }} and {{ b }}" 0%nat "?"
              (MiniJinja.store_of {["a" := "X"]}) {["a" := "X"]} eq_refl)
    as (r & s' & Hcall & Hkept & _).
  exists r, s'. split; assumption.
Defined.

Example mini_hello_default :
  Jinja.parse_with_jinja "Hello {{ name }}" 0%nat "" (MiniJinja.store_of ∅)
  = Some (Return "Hello ",
          Jinja.Store {[0%nat := ∅; 1%nat := {["name" := ""]}]}
            [Jinja.LogRecord "Cannot parse %s properly using %s"
               "Hello {{ name }}" ∅]).
Proof. vm_compute. reflexivity. Qed.

Example mini_unbalanced :
  Jinja.parse_with_jinja "{{" 0%nat "" (MiniJinja.store_of ∅)
  = Some (Raise (TemplateSyntaxError "unexpected 'end of template'"),
          MiniJinja.store_of ∅).
Proof. vm_compute. reflexivity. Qed.

Example mini_lone_brace :
  Jinja.parse_with_jinja "{{ a }" 0%nat "" (MiniJinja.store_of ∅)
  = Some (Raise (TemplateSyntaxError "unexpected '}'"),
          MiniJinja.store_of ∅).
Proof. vm_compute. reflexivity. Qed.

(** ** String helpers *)

Section StringsFacts.
Import Strings.

Lemma but_last_snoc (init : list string) (lst : string) :
  but_last (init ++ [lst]) = init.
Proof.
  unfold but_last. rewrite length_app. cbn [length].
  replace (length init + 1 - 1)%nat with (length init) by lia.
  now rewrite take_app_length.
Qed.

Lemma last_item_snoc (init : list string) (lst : string) :
  last_item (init ++ [lst]) = Some lst.
Proof.
  unfold last_item. rewrite length_app. cbn [length].
  replace (length init + 1)%nat with (S (length init)) by lia.
  rewrite lookup_app_r by lia. now rewrite Nat.sub_diag.
Qed.
End StringsFacts.

(** C9.  [get_comma_sep_string_from_list] returns the empty string for the
    empty list, the element itself for a list of one, and for a longer list
    the elements but the last joined by a comma and a space, then [" and "],
    then the last element. *)
Theorem get_comma_sep_string_from_list_spec :
  Strings.get_comma_sep_string_from_list [] = Some ""
  /\ (forall x : string, Strings.get_comma_sep_string_from_list [x] = Some x)
  /\ (forall (x : string) (init : list string) (lst : string),
        Strings.get_comma_sep_string_from_list (x :: init ++ [lst]) =
        Some (Strings.join ", " (x :: init) ++ " and " ++ lst)).
Proof.
  split; [reflexivity|]. split; [reflexivity|].
  intros x init lst. unfold Strings.get_comma_sep_string_from_list.
  change (x :: init ++ [lst])%list with ((x :: init) ++ [lst])%list.
  replace (length ((x :: init) ++ [lst]) =? 1)%nat with false.
  - rewrite (last_item_snoc (x :: init) lst).
    rewrite (but_last_snoc (x :: init) lst). reflexivity.
  - symmetry. apply Nat.eqb_neq. rewrite length_app. cbn [length]. lia.
Qed.

Example comma_sep_three :
  Strings.get_comma_sep_string_from_list ["a"; "b"; "c"] = Some "a, b and c".
Proof. reflexivity. Qed.

Example comma_sep_two :
  Strings.get_comma_sep_string_from_list ["a"; "b"] = Some "a and b".
Proof. reflexivity. Qed.

(** ** Existence of a name in the datastore *)

(** C10.  With an empty name, [check_existence_of_name] raises
    [EntityIdNotFoundError] for every entity class and every ancestor,
    given or not, and the datastore has been asked no query. *)
Theorem check_existence_of_name_empty {Key Entity Datastore : Type}
    (key_of : Entity -> Key)
    (get : Ndb.query Key -> Datastore -> option Entity)
    (entity : Ndb.model_class) (ancestor : option Entity)
    (w : Ndb.world Key Datastore) :
  Ndb.check_existence_of_name key_of get entity "" ancestor w =
  (Raise (EntityIdNotFoundError "No %s name supplied"
            (Ndb.lower (Ndb.class_name entity))), w)
  /\ Ndb.queries
       (snd (Ndb.check_existence_of_name key_of get entity "" ancestor w))
     = Ndb.queries w.
Proof. split; reflexivity. Qed.

(** With a name, the datastore is asked exactly one query, unless the class
    is [State] and no ancestor is given. *)
Lemma check_existence_of_name_queries {Key Entity Datastore : Type}
    (key_of : Entity -> Key)
    (get : Ndb.query Key -> Datastore -> option Entity)
    (entity : Ndb.model_class) (name : string) (ancestor : option Entity)
    (w : Ndb.world Key Datastore) :
  name <> "" ->
  (ancestor = None -> entity <> Ndb.State) ->
  Ndb.check_existence_of_name key_of get entity name ancestor w =
  (Return (bool_decide
             (is_Some (get (Ndb.Query entity (key_of <$> ancestor) name)
                           (Ndb.datastore w)))),
   Ndb.World (Ndb.datastore w)
     (Ndb.queries w ++ [Ndb.Query entity (key_of <$> ancestor) name])).
Proof.
  intros Hname Hstate. unfold Ndb.check_existence_of_name.
  apply String.eqb_neq in Hname. rewrite Hname.
  destruct ancestor as [a|]; [reflexivity|].
  rewrite decide_False by auto. reflexivity.
Qed.

Lemma check_existence_of_name_state_needs_ancestor
    {Key Entity Datastore : Type}
    (key_of : Entity -> Key)
    (get : Ndb.query Key -> Datastore -> option Entity)
    (name : string) (w : Ndb.world Key Datastore) :
  name <> "" ->
  Ndb.check_existence_of_name key_of get Ndb.State name None w =
  (Raise (KeyError "Queries for state entities must include ancestors."), w).
Proof.
  intros Hname. unfold Ndb.check_existence_of_name.
  apply String.eqb_neq in Hname. rewrite Hname. reflexivity.
Qed.

(** ** Generated identifiers and demo explorations *)

Section ReturnedIds.
Import IdGen.
Context {World : Type}.
Variable get_by_id : string -> World -> bool * World.

(** What a returning call returns: the first candidate answered "absent". *)
Lemma get_new_id_returned (name : Py.unicode) (w : World) (fuel : nat)
    (id : string) (w' : World) :
  get_new_id get_by_id fuel name w = Some (id, w') ->
  exists k,
    (k < fuel)%nat
    /\ id = candidate name k
    /\ w' = world_after get_by_id name (S k) w
    /\ response get_by_id name k w = false
    /\ forall i, (i < k)%nat -> response get_by_id name i w = true.
Proof.
  intros Hret.
  destruct (answers_below get_by_id name w fuel)
    as [Hall|(k & Hk & Hrk & Hmin)].
  - rewrite (get_new_id_runs get_by_id name w fuel Hall) in Hret.
    discriminate.
  - rewrite (get_new_id_stops get_by_id name w k fuel Hmin Hrk Hk) in Hret.
    injection Hret as <- <-. exists k. auto.
Qed.
End ReturnedIds.

(** X1.  An identifier returned by [get_new_id] is never taken for the
    identifier of a demo exploration: it has ten characters, and
    [is_demo_exploration] holds of fewer than four. *)
Theorem generated_id_is_not_demo {World : Type}
    (get_by_id : string -> World -> bool * World)
    (name : Py.unicode) (w : World) (fuel : nat) (id : string) (w' : World) :
  IdGen.get_new_id get_by_id fuel name w = Some (id, w') ->
  Misc.is_demo_exploration id = false.
Proof.
  intros Hret.
  destruct (get_new_id_returned get_by_id name w fuel id w' Hret)
    as (k & _ & -> & _).
  unfold Misc.is_demo_exploration.
  assert (Hlen : String.length (IdGen.candidate name k) = 10%nat)
    by (destruct k; apply hash_id_shape).
  rewrite Hlen. reflexivity.
Qed.

Lemma generated_id_is_not_demo_witness :
  IdGen.get_new_id IdGen.always_absent 1 (Py.unicode_of_ascii "abc") tt
  = Some ("qZk-NkcGgW", tt)
  /\ Misc.is_demo_exploration "qZk-NkcGgW" = false.
Proof.
  assert (Hret : IdGen.get_new_id IdGen.always_absent 1
                   (Py.unicode_of_ascii "abc") tt = Some ("qZk-NkcGgW", tt))
    by (vm_compute; reflexivity).
  split; [exact Hret|].
  exact (generated_id_is_not_demo IdGen.always_absent
           (Py.unicode_of_ascii "abc") tt 1 "qZk-NkcGgW" tt Hret).
Defined.

(** X2.  Against a datastore seen as a predicate over identifiers, the
    identifier [get_new_id] returns is one the predicate answers "absent"
    to, and every candidate before it in the sequence is present. *)
Theorem get_new_id_returns_free_id (exists_ : string -> bool)
    (name : Py.unicode) (fuel : nat) (id : string) (w' : unit) :
  IdGen.get_new_id (IdGen.of_predicate exists_) fuel name tt = Some (id, w') ->
  exists_ id = false
  /\ exists k,
       id = IdGen.candidate name k
       /\ forall i, (i < k)%nat -> exists_ (IdGen.candidate name i) = true.
Proof.
  intros Hret.
  destruct (get_new_id_returned _ name tt fuel id w' Hret)
    as (k & _ & -> & _ & Hk & Hmin).
  rewrite of_predicate_response in Hk. split; [exact Hk|].
  exists k. split; [reflexivity|].
  intros i Hi. rewrite <- of_predicate_response. now apply Hmin.
Qed.

Lemma get_new_id_returns_free_id_witness :
  IdGen.get_new_id (IdGen.of_predicate (String.eqb "qZk-NkcGgW")) 2
    (Py.unicode_of_ascii "abc") tt = Some ("nuA2KHtM-8", tt)
  /\ String.eqb "qZk-NkcGgW" "nuA2KHtM-8" = false.
Proof.
  assert (Hret : IdGen.get_new_id
                   (IdGen.of_predicate (String.eqb "qZk-NkcGgW")) 2
                   (Py.unicode_of_ascii "abc") tt = Some ("nuA2KHtM-8", tt))
    by (vm_compute; reflexivity).
  split; [exact Hret|].
  exact (proj1 (get_new_id_returns_free_id (String.eqb "qZk-NkcGgW")
                  (Py.unicode_of_ascii "abc") 2 "nuA2KHtM-8" tt Hret)).
Defined.

(** ** [to_string] and the namespace of [create_enum] *)

Section MiscFacts.
Import Misc.

Lemma ascii_code_point (cp : N) :
  is_ascii cp = true -> N_of_ascii (ascii_of_N cp) = cp.
Proof.
  unfold is_ascii. intros H. apply N.ltb_lt in H.
  apply N_ascii_embedding. lia.
Qed.

Lemma utf8_of_ascii_code_point (cp : N) :
  is_ascii cp = true -> Py.utf8_of_code_point cp = [cp].
Proof.
  unfold is_ascii, Py.utf8_of_code_point. intros H.
  change 0x80%N with 128%N. now rewrite H.
Qed.

Lemma utf8_of_ascii_text (u : Py.unicode) :
  forallb is_ascii u = true -> flat_map Py.utf8_of_code_point u = u.
Proof.
  induction u as [|cp u IH]; [reflexivity|]. cbn [forallb flat_map].
  intros H. apply andb_prop in H as [Hcp Hu].
  rewrite (utf8_of_ascii_code_point cp Hcp), (IH Hu). reflexivity.
Qed.

Lemma filter_is_ascii (u : Py.unicode) :
  forallb is_ascii (List.filter is_ascii u) = true.
Proof.
  induction u as [|cp u IH]; [reflexivity|]. cbn [List.filter].
  destruct (is_ascii cp) eqn:E; [|exact IH].
  cbn [forallb]. now rewrite E, IH.
Qed.

Lemma map_ascii_round_trip (u : Py.unicode) :
  forallb is_ascii u = true -> map N_of_ascii (map ascii_of_N u) = u.
Proof.
  induction u as [|cp u IH]; [reflexivity|]. cbn [forallb map].
  intros H. apply andb_prop in H as [Hcp Hu].
  rewrite (ascii_code_point cp Hcp), (IH Hu). reflexivity.
Qed.

Lemma length_string_of_list_ascii (l : list ascii) :
  String.length (string_of_list_ascii l) = length l.
Proof. induction l as [|c l IH]; [reflexivity|]. cbn. now rewrite IH. Qed.

(** A dictionary built by setting pairs in order. *)
Lemma lookup_fold_insert {V : Type} (of_str : string -> V)
    (l : list string) (d : gmap string V) (k : string) :
  fold_left (fun d kv => <[fst kv := of_str (snd kv)]> d) (zip l l) d !! k =
  if decide (k ∈ l) then Some (of_str k) else d !! k.
Proof.
  revert d. induction l as [|x l IH]; intros d; cbn [zip zip_with fold_left].
  - rewrite decide_False by set_solver. reflexivity.
  - rewrite IH. cbn [fst snd].
    destruct (decide (k ∈ l)) as [Hin|Hout].
    + rewrite decide_True by set_solver. reflexivity.
    + destruct (decide (k = x)) as [->|Hne].
      * rewrite decide_True by set_solver. apply lookup_insert_eq.
      * rewrite decide_False by set_solver.
        now rewrite lookup_insert_ne.
Qed.
End MiscFacts.

(** X3.  [to_string] keeps exactly the ASCII code points of a text, in
    order: read back as a text the result is the input without its other
    code points, it is the UTF-8 encoding of that text, and it is never
    longer than the input. *)
Theorem to_string_keeps_ascii (u : Py.unicode) :
  Py.unicode_of_ascii (Misc.to_string u) = List.filter Misc.is_ascii u
  /\ Misc.to_string u = Py.encode_utf8 (List.filter Misc.is_ascii u)
  /\ (String.length (Misc.to_string u) <= length u)%nat.
Proof.
  unfold Misc.to_string, Py.unicode_of_ascii, Py.encode_utf8.
  split; [|split].
  - rewrite list_ascii_of_string_of_list_ascii.
    apply map_ascii_round_trip, filter_is_ascii.
  - now rewrite (utf8_of_ascii_text _ (filter_is_ascii u)).
  - rewrite length_string_of_list_ascii, length_map.
    apply List.filter_length_le.
Qed.

(** X4.  The namespace dictionary [create_enum] hands to [type] binds every
    keyword argument to the value given and every positional name that no
    keyword overrides to the name itself, and has no other key. *)
Theorem create_enum_namespace {V : Type} (of_str : string -> V)
    (sequential : list string) (names : gmap string V) (k : string) :
  Misc.enums of_str sequential names !! k =
  match names !! k with
  | Some v => Some v
  | None => if decide (k ∈ sequential) then Some (of_str k) else None
  end.
Proof.
  unfold Misc.enums. rewrite lookup_union, lookup_fold_insert.
  rewrite lookup_empty.
  destruct (names !! k) as [v|]; [now rewrite union_Some_l|].
  now rewrite (left_id None union).
Qed.

(** ** [encode_strings_as_ascii] *)

Section Ascii7Facts.
Import Ascii7.

(** Induction on an object, with the property at hand for the members of a
    list and for the keys and values of a dictionary. *)
Lemma pyobj_nested_ind (P : pyobj -> Prop) :
  P PyNone ->
  (forall n, P (PyInt n)) ->
  (forall s, P (PyStr s)) ->
  (forall u, P (PyUnicode u)) ->
  (forall items, Forall P items -> P (PyList items)) ->
  (forall items, P (PyTuple items)) ->
  (forall items, P (PySet items)) ->
  (forall items, Forall (fun kv => P (fst kv) /\ P (snd kv)) items ->
                 P (PyDict items)) ->
  forall obj, P obj.
Proof.
  intros HNone HInt HStr HUni HList HTuple HSet HDict.
  fix IH 1. intros [ |n|s|u|items|items|items|items].
  - exact HNone.
  - exact (HInt n).
  - exact (HStr s).
  - exact (HUni u).
  - apply HList. induction items as [|x items IHitems]; constructor.
    + apply IH.
    + exact IHitems.
  - exact (HTuple items).
  - exact (HSet items).
  - apply HDict. induction items as [|[k v] items IHitems]; constructor.
    + split; apply IH.
    + exact IHitems.
Qed.

Lemma str_of_unicode_ascii (u : Py.unicode) :
  forallb Misc.is_ascii u = true ->
  str_of_unicode u = inr (string_of_list_ascii (map ascii_of_N u)).
Proof. intros H. unfold str_of_unicode. now rewrite H. Qed.

Lemma str_of_unicode_error (u : Py.unicode) :
  forallb Misc.is_ascii u = false ->
  exists e, str_of_unicode u = inl e
            /\ Exc.exc_class e = "UnicodeEncodeError".
Proof.
  intros H. unfold str_of_unicode. rewrite H. eexists. split; reflexivity.
Qed.

(** A hashable key is encoded to a hashable key. *)
Lemma encode_hashable (obj r : pyobj) :
  hashable obj = true -> encode_strings_as_ascii obj = inr r ->
  hashable r = true.
Proof.
  destruct obj; cbn; try discriminate; intros Hh Henc;
    try (injection Henc as <-; exact Hh).
  destruct (str_of_unicode u); [discriminate|]. now injection Henc as <-.
Qed.

(** The list comprehension on members that satisfy the statement below. *)
Lemma encode_items_expected (items : list pyobj) :
  Forall (fun obj => keys_hashable obj = true -> ascii_reachable obj = true ->
                     encode_strings_as_ascii obj = inr (expected obj)) items ->
  forallb keys_hashable items = true ->
  forallb ascii_reachable items = true ->
  encode_items encode_strings_as_ascii items = inr (map expected items).
Proof.
  induction 1 as [|x items Hx _ IH]; [reflexivity|].
  cbn [forallb encode_items map]. intros Hk Ha.
  apply andb_prop in Hk as [Hkx Hk]. apply andb_prop in Ha as [Hax Ha].
  now rewrite (Hx Hkx Hax), (IH Hk Ha).
Qed.

Lemma encode_dict_expected (items : list (pyobj * pyobj)) :
  Forall (fun kv =>
            (keys_hashable (fst kv) = true -> ascii_reachable (fst kv) = true ->
             encode_strings_as_ascii (fst kv) = inr (expected (fst kv)))
            /\ (keys_hashable (snd kv) = true ->
                ascii_reachable (snd kv) = true ->
                encode_strings_as_ascii (snd kv) = inr (expected (snd kv))))
    items ->
  keys_hashable (PyDict items) = true ->
  ascii_reachable (PyDict items) = true ->
  forall new_dict,
    exists d, encode_dict encode_strings_as_ascii items new_dict = inr d.
Proof.
  induction 1 as [|[k v] items [Hk Hv] _ IH]; intros Hkeys Hasc new_dict.
  - eexists. reflexivity.
  - cbn [keys_hashable ascii_reachable forallb fst snd] in Hkeys, Hasc.
    apply andb_prop in Hkeys as [Hkv Hkeys]. apply andb_prop in Hkv as [Hkv Hvk].
    apply andb_prop in Hkv as [Hhash Hkk].
    apply andb_prop in Hasc as [Hav Hasc]. apply andb_prop in Hav as [Hav Hak].
    cbn [encode_dict]. cbn [fst snd] in Hk, Hv.
    rewrite (Hv Hvk Hav), (Hk Hkk Hak).
    rewrite (encode_hashable k (expected k) Hhash (Hk Hkk Hak)).
    apply IH; assumption.
Qed.

Lemma encode_expected (obj : pyobj) :
  keys_hashable obj = true -> ascii_reachable obj = true ->
  encode_strings_as_ascii obj = inr (expected obj).
Proof.
  induction obj as [ |n|s|u|items IH|items|items|items IH]
    using pyobj_nested_ind; intros Hkeys Hasc; try reflexivity.
  - cbn in *. now rewrite (str_of_unicode_ascii u Hasc).
  - cbn [encode_strings_as_ascii expected].
    now rewrite (encode_items_expected items IH Hkeys Hasc).
  - cbn [encode_strings_as_ascii expected].
    destruct (encode_dict_expected items IH Hkeys Hasc []) as [d ->].
    reflexivity.
Qed.

(** When a reachable [unicode] is not ASCII the call raises
    [UnicodeEncodeError]. *)
Lemma encode_items_error (items : list pyobj) :
  Forall (fun obj => keys_hashable obj = true -> ascii_reachable obj = false ->
                     exists e, encode_strings_as_ascii obj = inl e
                               /\ Exc.exc_class e = "UnicodeEncodeError")
    items ->
  forallb keys_hashable items = true ->
  forallb ascii_reachable items = false ->
  exists e, encode_items encode_strings_as_ascii items = inl e
            /\ Exc.exc_class e = "UnicodeEncodeError".
Proof.
  induction 1 as [|x items Hx _ IH]; [discriminate|].
  cbn [forallb encode_items]. intros Hk Ha.
  apply andb_prop in Hk as [Hkx Hk].
  destruct (ascii_reachable x) eqn:Hax.
  - rewrite (encode_expected x Hkx Hax).
    destruct (IH Hk Ha) as (e & -> & He). eauto.
  - destruct (Hx Hkx eq_refl) as (e & -> & He). eauto.
Qed.

Lemma encode_dict_error (items : list (pyobj * pyobj)) :
  Forall (fun kv =>
            (keys_hashable (fst kv) = true ->
             ascii_reachable (fst kv) = false ->
             exists e, encode_strings_as_ascii (fst kv) = inl e
                       /\ Exc.exc_class e = "UnicodeEncodeError")
            /\ (keys_hashable (snd kv) = true ->
                ascii_reachable (snd kv) = false ->
                exists e, encode_strings_as_ascii (snd kv) = inl e
                          /\ Exc.exc_class e = "UnicodeEncodeError"))
    items ->
  keys_hashable (PyDict items) = true ->
  ascii_reachable (PyDict items) = false ->
  forall new_dict,
    exists e, encode_dict encode_strings_as_ascii items new_dict = inl e
              /\ Exc.exc_class e = "UnicodeEncodeError".
Proof.
  induction 1 as [|[k v] items [Hk Hv] _ IH]; intros Hkeys Hasc new_dict;
    [discriminate|].
  cbn [keys_hashable ascii_reachable forallb fst snd] in Hkeys, Hasc.
  apply andb_prop in Hkeys as [Hkv Hkeys]. apply andb_prop in Hkv as [Hkv Hvk].
  apply andb_prop in Hkv as [Hhash Hkk].
  cbn [encode_dict]. cbn [fst snd] in Hk, Hv.
  destruct (ascii_reachable v) eqn:Hav.
  - rewrite (encode_expected v Hvk Hav).
    destruct (ascii_reachable k) eqn:Hak.
    + rewrite (encode_expected k Hkk Hak).
      rewrite (encode_hashable k (expected k) Hhash
                 (encode_expected k Hkk Hak)).
      apply IH; assumption.
    + destruct (Hk Hkk eq_refl) as (e & -> & He). eauto.
  - destruct (Hv Hvk eq_refl) as (e & -> & He). eauto.
Qed.

Lemma encode_error (obj : pyobj) :
  keys_hashable obj = true -> ascii_reachable obj = false ->
  exists e, encode_strings_as_ascii obj = inl e
            /\ Exc.exc_class e = "UnicodeEncodeError".
Proof.
  induction obj as [ |n|s|u|items IH|items|items|items IH]
    using pyobj_nested_ind; intros Hkeys Hasc; try discriminate.
  - cbn in *. destruct (str_of_unicode_error u Hasc) as (e & -> & He). eauto.
  - cbn [encode_strings_as_ascii].
    destruct (encode_items_error items IH Hkeys Hasc) as (e & -> & He). eauto.
  - cbn [encode_strings_as_ascii].
    destruct (encode_dict_error items IH Hkeys Hasc []) as (e & -> & He). eauto.
Qed.

(** A plain object is returned as it is. *)
Lemma encode_items_plain (items : list pyobj) :
  Forall (fun obj => plain obj = true ->
                     encode_strings_as_ascii obj = inr obj) items ->
  forallb plain items = true ->
  encode_items encode_strings_as_ascii items = inr items.
Proof.
  induction 1 as [|x items Hx _ IH]; [reflexivity|].
  cbn [forallb encode_items]. intros Hp.
  apply andb_prop in Hp as [Hpx Hp]. now rewrite (Hx Hpx), (IH Hp).
Qed.

Lemma encode_plain (obj : pyobj) :
  plain obj = true -> encode_strings_as_ascii obj = inr obj.
Proof.
  induction obj as [ |n|s|u|items IH|items|items|items IH]
    using pyobj_nested_ind; intros Hp; try reflexivity; try discriminate.
  cbn [encode_strings_as_ascii].
  now rewrite (encode_items_plain items IH Hp).
Qed.

(** Whatever is returned is plain. *)
Lemma encode_items_returns_plain (items : list pyobj) :
  Forall (fun obj => forall r, encode_strings_as_ascii obj = inr r ->
                               plain r = true) items ->
  forall xs, encode_items encode_strings_as_ascii items = inr xs ->
             forallb plain xs = true.
Proof.
  induction 1 as [|x items Hx _ IH]; intros xs; cbn [encode_items].
  - intros [= <-]. reflexivity.
  - destruct (encode_strings_as_ascii x) as [e|r] eqn:Hr; [discriminate|].
    destruct (encode_items encode_strings_as_ascii items) as [e|rs];
      [discriminate|].
    intros [= <-]. cbn [forallb]. now rewrite (Hx r eq_refl), (IH rs eq_refl).
Qed.

Lemma encode_returns_plain (obj r : pyobj) :
  encode_strings_as_ascii obj = inr r -> plain r = true.
Proof.
  revert r.
  induction obj as [ |n|s|u|items IH|items|items|items IH]
    using pyobj_nested_ind; intros r; cbn [encode_strings_as_ascii];
    try (intros [= <-]; reflexivity).
  - destruct (str_of_unicode u); [discriminate|]. intros [= <-]. reflexivity.
  - destruct (encode_items encode_strings_as_ascii items) as [e|xs] eqn:Hxs;
      [discriminate|].
    intros [= <-]. cbn [plain].
    exact (encode_items_returns_plain items IH xs Hxs).
  - destruct (encode_dict encode_strings_as_ascii items []);
      [discriminate|]. intros [= <-]. reflexivity.
Qed.
End Ascii7Facts.

(** X5.  On an object whose reachable [unicode] strings are all ASCII,
    [encode_strings_as_ascii] returns the object with each of them turned
    into a [str] and every dictionary it reaches replaced by [None]: the
    encoded dictionary is built and then dropped. *)
Theorem encode_strings_as_ascii_on_ascii (obj : Ascii7.pyobj) :
  Ascii7.keys_hashable obj = true ->
  Ascii7.ascii_reachable obj = true ->
  Ascii7.encode_strings_as_ascii obj = inr (Ascii7.expected obj)
  /\ (forall items, obj = Ascii7.PyDict items ->
        Ascii7.encode_strings_as_ascii obj = inr Ascii7.PyNone).
Proof.
  intros Hkeys Hasc. split.
  - now apply encode_expected.
  - intros items ->. now rewrite encode_expected.
Qed.

Lemma encode_strings_as_ascii_on_ascii_witness :
  Ascii7.keys_hashable
    (Ascii7.PyList
       [Ascii7.PyUnicode [97; 98]%N;
        Ascii7.PyDict [(Ascii7.PyUnicode [107]%N, Ascii7.PyInt 1)]]) = true
  /\ Ascii7.encode_strings_as_ascii
       (Ascii7.PyList
          [Ascii7.PyUnicode [97; 98]%N;
           Ascii7.PyDict [(Ascii7.PyUnicode [107]%N, Ascii7.PyInt 1)]])
     = inr (Ascii7.PyList [Ascii7.PyStr "ab"; Ascii7.PyNone]).
Proof.
  split; [reflexivity|].
  exact (proj1 (encode_strings_as_ascii_on_ascii
                  (Ascii7.PyList
                     [Ascii7.PyUnicode [97; 98]%N;
                      Ascii7.PyDict
                        [(Ascii7.PyUnicode [107]%N, Ascii7.PyInt 1)]])
                  eq_refl eq_refl)).
Defined.

(** X6.  [encode_strings_as_ascii] raises [UnicodeEncodeError] as soon as a
    [unicode] string it reaches (through lists, dictionary keys and values)
    holds a code point that is not ASCII, and only then. *)
Theorem encode_strings_as_ascii_raises (obj : Ascii7.pyobj) :
  Ascii7.keys_hashable obj = true ->
  match Ascii7.encode_strings_as_ascii obj with
  | inr _ => Ascii7.ascii_reachable obj = true
  | inl e => Ascii7.ascii_reachable obj = false
             /\ Exc.exc_class e = "UnicodeEncodeError"
  end.
Proof.
  intros Hkeys. destruct (Ascii7.ascii_reachable obj) eqn:Hasc.
  - now rewrite (encode_expected obj Hkeys Hasc).
  - destruct (encode_error obj Hkeys Hasc) as (e & -> & He). auto.
Qed.

Lemma encode_strings_as_ascii_raises_witness :
  Ascii7.keys_hashable
    (Ascii7.PyList [Ascii7.PyStr "a"; Ascii7.PyUnicode [97; 233; 234; 98]%N])
  = true
  /\ match Ascii7.encode_strings_as_ascii
             (Ascii7.PyList
                [Ascii7.PyStr "a"; Ascii7.PyUnicode [97; 233; 234; 98]%N]) with
     | inr _ =>
         Ascii7.ascii_reachable
           (Ascii7.PyList
              [Ascii7.PyStr "a"; Ascii7.PyUnicode [97; 233; 234; 98]%N]) = true
     | inl e =>
         Ascii7.ascii_reachable
           (Ascii7.PyList
              [Ascii7.PyStr "a"; Ascii7.PyUnicode [97; 233; 234; 98]%N]) = false
         /\ Exc.exc_class e = "UnicodeEncodeError"
     end.
Proof.
  split; [reflexivity|].
  exact (encode_strings_as_ascii_raises
           (Ascii7.PyList
              [Ascii7.PyStr "a"; Ascii7.PyUnicode [97; 233; 234; 98]%N])
           eq_refl).
Defined.

Example encode_strings_as_ascii_error_position :
  Ascii7.encode_strings_as_ascii
    (Ascii7.PyList [Ascii7.PyStr "a"; Ascii7.PyUnicode [97; 233; 234; 98]%N])
  = inl (Exc.Exception "UnicodeEncodeError"
           [Exc.AStr "ascii"; Exc.AUnicode [97; 233; 234; 98]%N;
            Exc.AInt 1; Exc.AInt 3; Exc.AStr "ordinal not in range(128)"]).
Proof. vm_compute. reflexivity. Qed.

(** X7.  What [encode_strings_as_ascii] returns holds no [unicode] and no
    dictionary at the object or through its lists, and encoding it again
    returns it unchanged. *)
Theorem encode_strings_as_ascii_idempotent (obj r : Ascii7.pyobj) :
  Ascii7.encode_strings_as_ascii obj = inr r ->
  Ascii7.plain r = true /\ Ascii7.encode_strings_as_ascii r = inr r.
Proof.
  intros Hr. pose proof (encode_returns_plain obj r Hr) as Hp.
  split; [exact Hp | now apply encode_plain].
Qed.

Lemma encode_strings_as_ascii_idempotent_witness :
  Ascii7.encode_strings_as_ascii
    (Ascii7.PyList [Ascii7.PyUnicode [97]%N; Ascii7.PyTuple [Ascii7.PyUnicode [233]%N]])
  = inr (Ascii7.PyList [Ascii7.PyStr "a"; Ascii7.PyTuple [Ascii7.PyUnicode [233]%N]])
  /\ Ascii7.encode_strings_as_ascii
       (Ascii7.PyList [Ascii7.PyStr "a"; Ascii7.PyTuple [Ascii7.PyUnicode [233]%N]])
     = inr (Ascii7.PyList [Ascii7.PyStr "a"; Ascii7.PyTuple [Ascii7.PyUnicode [233]%N]]).
Proof.
  split; [reflexivity|].
  exact (proj2 (encode_strings_as_ascii_idempotent
                  (Ascii7.PyList [Ascii7.PyUnicode [97]%N;
                                  Ascii7.PyTuple [Ascii7.PyUnicode [233]%N]])
                  _ eq_refl)).
Defined.

(** ** Queries for states *)

(** X8.  [get_state_by_name] raises [EntityIdNotFoundError] for an empty
    name, whether or not an exploration is given, and [KeyError] for a name
    without an exploration; in both cases the datastore is asked no
    query. *)
Theorem get_state_by_name_errors {Key Entity Datastore : Type}
    (key_of : Entity -> Key)
    (get : Ndb.query Key -> Datastore -> option Entity)
    (name : string) (exploration : option Entity)
    (w : Ndb.world Key Datastore) :
  name = "" \/ exploration = None ->
  exists e,
    Queries.get_state_by_name key_of get name exploration w = (inl e, w)
    /\ Exc.exc_class e =
       (if String.eqb name "" then "EntityIdNotFoundError" else "KeyError").
Proof.
  intros Hcase. unfold Queries.get_state_by_name.
  destruct (String.eqb name "") eqn:Hname.
  - eexists. split; reflexivity.
  - destruct Hcase as [->| ->]; [discriminate|].
    eexists. split; reflexivity.
Qed.

Lemma get_state_by_name_errors_witness :
  ("" = "" \/ (None : option nat) = None)
  /\ exists e,
       Queries.get_state_by_name (fun e : nat => e)
         (fun _ (_ : unit) => None) "" None (Ndb.World tt [])
       = (inl e, Ndb.World tt [])
       /\ Exc.exc_class e = "EntityIdNotFoundError".
Proof.
  split; [left; reflexivity|].
  exact (get_state_by_name_errors (fun e : nat => e)
           (fun _ (_ : unit) => None) "" None (Ndb.World tt [])
           (or_introl eq_refl)).
Defined.

(** X9.  For a name and an exploration, [check_existence_of_name] on the
    class [State] and [get_state_by_name] ask the datastore the same single
    query, and the first returns [True] exactly when the second returns a
    state. *)
Theorem check_existence_agrees_with_get_state {Key Entity Datastore : Type}
    (key_of : Entity -> Key)
    (get : Ndb.query Key -> Datastore -> option Entity)
    (name : string) (exploration : Entity) (w : Ndb.world Key Datastore) :
  name <> "" ->
  exists found w',
    Queries.get_state_by_name key_of get name (Some exploration) w
    = (inr found, w')
    /\ Ndb.check_existence_of_name key_of get Ndb.State name
         (Some exploration) w
       = (Return (bool_decide (is_Some found)), w')
    /\ Ndb.queries w' =
       (Ndb.queries w
        ++ [Ndb.Query Ndb.State (Some (key_of exploration)) name])%list.
Proof.
  intros Hname. apply String.eqb_neq in Hname.
  unfold Queries.get_state_by_name, Ndb.check_existence_of_name.
  rewrite Hname. cbn. do 2 eexists. repeat split.
Qed.

Lemma check_existence_agrees_with_get_state_witness :
  "Intro" <> ""
  /\ exists found w',
       Queries.get_state_by_name (fun e : nat => e)
         (fun q (ds : list (nat * string)) =>
            fst <$> List.find
                      (fun kv => String.eqb (snd kv) (Ndb.name_filter _ q)) ds)
         "Intro" (Some 7%nat) (Ndb.World [(3%nat, "Intro")] [])
       = (inr found, w')
       /\ Ndb.check_existence_of_name (fun e : nat => e)
            (fun q (ds : list (nat * string)) =>
               fst <$> List.find
                         (fun kv => String.eqb (snd kv) (Ndb.name_filter _ q))
                         ds)
            Ndb.State "Intro" (Some 7%nat) (Ndb.World [(3%nat, "Intro")] [])
          = (Return (bool_decide (is_Some found)), w')
       /\ Ndb.queries w' =
          ([] ++ [Ndb.Query Ndb.State (Some 7%nat) "Intro"])%list.
Proof.
  split; [discriminate|].
  exact (check_existence_agrees_with_get_state (fun e : nat => e)
           (fun q (ds : list (nat * string)) =>
              fst <$> List.find
                        (fun kv => String.eqb (snd kv) (Ndb.name_filter _ q))
                        ds)
           "Intro" 7%nat (Ndb.World [(3%nat, "Intro")] [])
           ltac:(discriminate)).
Defined.

(** X10.  Without an ancestor, [check_existence_of_name] raises [KeyError]
    for the class [State] and asks no query; any other class, even one
    named like it, is queried without an ancestor. *)
Theorem check_existence_without_ancestor {Key Entity Datastore : Type}
    (key_of : Entity -> Key)
    (get : Ndb.query Key -> Datastore -> option Entity)
    (entity : Ndb.model_class) (name : string)
    (w : Ndb.world Key Datastore) :
  name <> "" ->
  Ndb.check_existence_of_name key_of get entity name None w =
  if decide (entity = Ndb.State) then
    (Raise (KeyError "Queries for state entities must include ancestors."), w)
  else
    (Return (bool_decide
               (is_Some (get (Ndb.Query entity None name) (Ndb.datastore w)))),
     Ndb.World (Ndb.datastore w)
       (Ndb.queries w ++ [Ndb.Query entity None name])).
Proof.
  intros Hname. apply String.eqb_neq in Hname.
  unfold Ndb.check_existence_of_name. rewrite Hname.
  destruct (decide (entity = Ndb.State)); reflexivity.
Qed.

Lemma check_existence_without_ancestor_witness :
  "Intro" <> ""
  /\ Ndb.check_existence_of_name (fun e : nat => e)
       (fun _ (_ : unit) => None) (Ndb.OtherModel "State") "Intro" None
       (Ndb.World tt [])
     = (Return false,
        Ndb.World tt [Ndb.Query (Ndb.OtherModel "State") None "Intro"]).
Proof.
  split; [discriminate|].
  exact (check_existence_without_ancestor (fun e : nat => e)
           (fun _ (_ : unit) => None) (Ndb.OtherModel "State") "Intro"
           (Ndb.World tt []) ltac:(discriminate)).
Defined.

(** ** Users and their explorations *)

Section UsersFacts.
Import Users.
Context {A : Type} `{EqDecision A}.

Lemma list_remove_present (x : A) (l : list A) :
  x ∈ l -> exists l', list_remove x l = Some l'.
Proof.
  induction l as [|y l IH]; intros Hin; [set_solver|].
  cbn [list_remove]. destruct (decide (x = y)) as [->|Hne]; [eauto|].
  destruct IH as [l' ->]; [set_solver|]. cbn. eauto.
Qed.

(** [l.remove(x)] takes out the first [x] and nothing else. *)
Lemma list_remove_first (x : A) (l l' : list A) :
  list_remove x l = Some l' ->
  exists before after,
    l = (before ++ x :: after)%list /\ x ∉ before
    /\ l' = (before ++ after)%list.
Proof.
  revert l'. induction l as [|y l IH]; intros l'; [discriminate|].
  cbn [list_remove]. destruct (decide (x = y)) as [->|Hne].
  - intros [= <-]. exists [], l. repeat split. set_solver.
  - destruct (list_remove x l) as [l''|] eqn:Hrem; [|discriminate].
    cbn. intros [= <-].
    destruct (IH l'' eq_refl) as (before & after & -> & Hout & ->).
    exists (y :: before), after. repeat split. set_solver.
Qed.

Lemma remove_first_nodup (x : A) (before after : list A) :
  NoDup (before ++ x :: after) -> x ∉ (before ++ after)%list.
Proof.
  intros Hnd. apply NoDup_app in Hnd as (_ & Hdisj & Hnd).
  apply NoDup_cons in Hnd as [Hafter _].
  intros Hin. apply elem_of_app in Hin as [Hin|Hin]; [|contradiction].
  apply (Hdisj x Hin). left.
Qed.
End UsersFacts.

Section DeleteFacts.
Import Users.
Context {User Key : Type} `{EqDecision Key}.

Lemma remove_from_each_puts (exploration_key : Key)
    (augmented_users : list (augmented_user User Key)) :
  Forall (fun au => exploration_key ∈ editable_explorations au)
    augmented_users ->
  forall ops,
  exists stripped,
    remove_from_each exploration_key augmented_users ops =
    (inr tt, (ops ++ map Put stripped)%list)
    /\ Forall2
         (fun au au' =>
            user au' = user au
            /\ exists before after,
                 editable_explorations au
                 = (before ++ exploration_key :: after)%list
                 /\ exploration_key ∉ before
                 /\ editable_explorations au' = (before ++ after)%list)
         augmented_users stripped.
Proof.
  induction 1 as [|au rest Hin _ IH]; intros ops.
  - exists []. cbn. rewrite app_nil_r. split; [reflexivity | constructor].
  - cbn [remove_from_each].
    destruct (list_remove_present _ _ Hin) as [l Hl]. rewrite Hl.
    destruct (IH (ops ++ [Put (AugmentedUser (user au) l)])%list)
      as (stripped & -> & Hall).
    exists (AugmentedUser (user au) l :: stripped). split.
    + cbn [map]. now rewrite <- app_assoc.
    + constructor; [|exact Hall].
      split; [reflexivity|]. exact (list_remove_first _ _ _ Hl).
Qed.
End DeleteFacts.

(** X11.  When every entity the query yields lists the exploration's key,
    [delete_exploration] puts each of them back, in order, for the same
    user and with the first occurrence of the key, and nothing else, taken
    out of its list, and then deletes the exploration.  An entity that
    listed the key once no longer lists it. *)
Theorem delete_exploration_operations {User Key : Type} `{EqDecision Key}
    (exploration_key : Key)
    (augmented_users : list (Users.augmented_user User Key)) :
  Forall (fun au => exploration_key ∈ Users.editable_explorations au)
    augmented_users ->
  exists stripped,
    Users.delete_exploration exploration_key augmented_users =
    (inr tt, (map Users.Put stripped ++ [Users.Delete exploration_key])%list)
    /\ Forall2
         (fun au au' =>
            Users.user au' = Users.user au
            /\ exists before after,
                 Users.editable_explorations au
                 = (before ++ exploration_key :: after)%list
                 /\ exploration_key ∉ before
                 /\ Users.editable_explorations au' = (before ++ after)%list
                 /\ (NoDup (Users.editable_explorations au) ->
                     exploration_key ∉ Users.editable_explorations au'))
         augmented_users stripped.
Proof.
  intros Hall. unfold Users.delete_exploration.
  destruct (remove_from_each_puts exploration_key augmented_users Hall [])
    as (stripped & -> & Hstripped).
  exists stripped. split; [reflexivity|].
  eapply Forall2_impl; [exact Hstripped|].
  intros au au' (Huser & before & after & Hl & Hout & Hl').
  split; [exact Huser|]. exists before, after.
  repeat split; try assumption.
  rewrite Hl, Hl'. apply remove_first_nodup.
Qed.

Lemma delete_exploration_operations_witness :
  Forall (fun au => 5%nat ∈ Users.editable_explorations au)
    [Users.AugmentedUser "ann" [4; 5; 6]%nat;
     Users.AugmentedUser "bob" [5; 4; 5; 6]%nat]
  /\ exists stripped,
       Users.delete_exploration 5%nat
         [Users.AugmentedUser "ann" [4; 5; 6]%nat;
          Users.AugmentedUser "bob" [5; 4; 5; 6]%nat]
       = (inr tt, (map Users.Put stripped ++ [Users.Delete 5%nat])%list)
       /\ Forall2
            (fun au au' =>
               Users.user au' = Users.user au
               /\ exists before after,
                    Users.editable_explorations au
                    = (before ++ 5%nat :: after)%list
                    /\ 5%nat ∉ before
                    /\ Users.editable_explorations au' = (before ++ after)%list
                    /\ (NoDup (Users.editable_explorations au) ->
                        5%nat ∉ Users.editable_explorations au'))
            [Users.AugmentedUser "ann" [4; 5; 6]%nat;
             Users.AugmentedUser "bob" [5; 4; 5; 6]%nat] stripped.
Proof.
  assert (Hall : Forall (fun au => 5%nat ∈ Users.editable_explorations au)
                   [Users.AugmentedUser "ann" [4; 5; 6]%nat;
                    Users.AugmentedUser "bob" [5; 4; 5; 6]%nat])
    by (repeat constructor; cbn; set_solver).
  split; [exact Hall|].
  exact (delete_exploration_operations 5%nat _ Hall).
Defined.

Example delete_exploration_duplicate :
  Users.delete_exploration 5%nat
    [Users.AugmentedUser "ann" [4; 5; 6]%nat;
     Users.AugmentedUser "bob" [5; 4; 5; 6]%nat]
  = (inr tt,
     [Users.Put (Users.AugmentedUser "ann" [4; 6]%nat);
      Users.Put (Users.AugmentedUser "bob" [4; 5; 6]%nat);
      Users.Delete 5%nat]).
Proof. reflexivity. Qed.

(** X12.  [get_augmented_user] creates at most one entity for a user: in a
    datastore whose query finds the entity just put, a second call returns
    the entity of the first and puts nothing. *)
Theorem get_augmented_user_twice {User Key Datastore : Type}
    (find : User -> Datastore -> option (Users.augmented_user User Key))
    (new : User -> Users.augmented_user User Key)
    (put : Users.augmented_user User Key -> Datastore -> Datastore)
    (u : User) (w : Users.world User Key Datastore) :
  (forall ds, find u ds = None -> find u (put (new u) ds) = Some (new u)) ->
  exists au w1,
    Users.get_augmented_user find new put u w = (au, w1)
    /\ Users.get_augmented_user find new put u w1 = (au, w1)
    /\ (Users.puts w1 = Users.puts w
        \/ Users.puts w1 = (Users.puts w ++ [new u])%list).
Proof.
  intros Hfound. unfold Users.get_augmented_user.
  destruct (find u (Users.datastore w)) as [au|] eqn:Hfind.
  - exists au, w. rewrite Hfind. auto.
  - do 2 eexists. split; [reflexivity|]. cbn [Users.datastore Users.puts].
    rewrite (Hfound _ Hfind). auto.
Qed.

Lemma get_augmented_user_twice_witness :
  (forall ds : list (Users.augmented_user string nat),
     List.find (fun au => String.eqb (Users.user au) "ann") ds = None ->
     List.find (fun au => String.eqb (Users.user au) "ann")
       (Users.AugmentedUser "ann" [] :: ds)
     = Some (Users.AugmentedUser "ann" []))
  /\ exists (au : Users.augmented_user string nat)
       (w1 : Users.world string nat (list (Users.augmented_user string nat))),
       Users.get_augmented_user
         (fun u ds => List.find (fun au => String.eqb (Users.user au) u) ds)
         (fun u => Users.AugmentedUser u []) cons "ann" (Users.World [] [])
       = (au, w1)
       /\ Users.get_augmented_user
            (fun u ds => List.find (fun au => String.eqb (Users.user au) u) ds)
            (fun u => Users.AugmentedUser u []) cons "ann" w1
          = (au, w1)
       /\ (Users.puts w1 = []
           \/ Users.puts w1 = ([] ++ [Users.AugmentedUser "ann" []])%list).
Proof.
  assert (Hfound :
    forall ds : list (Users.augmented_user string nat),
      List.find (fun au => String.eqb (Users.user au) "ann") ds = None ->
      List.find (fun au => String.eqb (Users.user au) "ann")
        (Users.AugmentedUser "ann" [] :: ds)
      = Some (Users.AugmentedUser "ann" [])) by reflexivity.
  split; [exact Hfound|].
  exact (get_augmented_user_twice
           (fun u ds => List.find (fun au => String.eqb (Users.user au) u) ds)
           (fun u => Users.AugmentedUser u []) cons "ann" (Users.World [] [])
           Hfound).
Defined.

(** X13.  [check_can_edit] is no read-only check: for a user who is not
    among the editors and has no [AugmentedUser] entity, it puts a new
    entity for the user, and it denies the right when the new entity lists
    no exploration.  For an editor it answers [True] and leaves the
    datastore alone. *)
Theorem check_can_edit_unknown_user {User Key Datastore : Type}
    `{EqDecision Key}
    (email : User -> string)
    (find : User -> Datastore -> option (Users.augmented_user User Key))
    (new : User -> Users.augmented_user User Key)
    (put : Users.augmented_user User Key -> Datastore -> Datastore)
    (u : User) (e : Users.exploration Key)
    (w : Users.world User Key Datastore) :
  find u (Users.datastore w) = None ->
  Users.editable_explorations (new u) = [] ->
  Users.check_can_edit email find new put u e w =
  if bool_decide (email u ∈ Users.editors e) then (true, w)
  else (false,
        Users.World (put (new u) (Users.datastore w))
          (Users.puts w ++ [new u])).
Proof.
  intros Hfind Hnew. unfold Users.check_can_edit, Users.get_augmented_user.
  case_bool_decide as Hed; [reflexivity|].
  rewrite Hfind, Hnew. f_equal.
Qed.

Lemma check_can_edit_unknown_user_witness :
  List.find (fun au : Users.augmented_user string nat =>
               String.eqb (Users.user au) "ann") [] = None
  /\ Users.editable_explorations
       (Users.AugmentedUser (Key := nat) "ann" []) = []
  /\ Users.check_can_edit (fun u => u ++ "@example.com")
       (fun u ds => List.find (fun au => String.eqb (Users.user au) u) ds)
       (fun u => Users.AugmentedUser u []) cons "ann"
       (Users.Exploration ["bob@example.com"] 5%nat) (Users.World [] [])
     = (false,
        Users.World [Users.AugmentedUser "ann" []]
          [Users.AugmentedUser "ann" []]).
Proof.
  split; [reflexivity|]. split; [reflexivity|].
  rewrite (check_can_edit_unknown_user (fun u => u ++ "@example.com")
             (fun u ds => List.find (fun au => String.eqb (Users.user au) u) ds)
             (fun u => Users.AugmentedUser u []) cons "ann"
             (Users.Exploration ["bob@example.com"] 5%nat) (Users.World [] [])
             eq_refl eq_refl).
  reflexivity.
Defined.

(** ** More on the template resolver *)

Section ResolverOrder.
Import Jinja.
Context {Value : Type} {engine : Engine Value}.

Lemma augmented_bound (m : gmap string Value) (vars : gset string)
    (default : Value) :
  vars ⊆ dom m -> augmented m vars default = m /\ missing m vars = ∅.
Proof.
  intros Hsub. split.
  - apply map_eq. intros k. rewrite augmented_lookup.
    destruct (m !! k) as [v|] eqn:Hk; [reflexivity|].
    rewrite decide_False; [reflexivity|].
    intros Hin. apply Hsub, elem_of_dom in Hin. rewrite Hk in Hin.
    now destruct Hin.
  - unfold missing. set_solver.
Qed.

(** No dictionary that was in the store is changed by a call. *)
Lemma parse_with_jinja_frame (string : string) (params : loc)
    (default : Value) (s : store Value) (m : gmap String.string Value) :
  heap s !! params = Some m ->
  exists r s',
    parse_with_jinja string params default s = Some (r, s')
    /\ forall l d, heap s !! l = Some d -> heap s' !! l = Some d.
Proof.
  intros Hp. destruct (parse string) as [msg|ast] eqn:Hparse.
  - exists (Raise (TemplateSyntaxError msg)), s.
    unfold parse_with_jinja. rewrite Hparse. auto.
  - do 2 eexists. split.
    + apply (parse_with_jinja_parsed string params default s m ast);
        assumption.
    + intros l d Hl. cbn [heap]. rewrite lookup_insert_ne; [assumption|].
      intros Heq. apply (is_fresh (dom (heap s))).
      rewrite Heq. apply elem_of_dom. eauto.
Qed.
End ResolverOrder.

(** X15.  The loop of [parse_with_jinja] over the undeclared variables gives
    the same store whatever the order in which the set yields them. *)
Theorem fill_defaults_any_order {Value : Type}
    (string : string) (params new_params : Jinja.loc) (default : Value)
    (s : Jinja.store Value) (m np : gmap String.string Value)
    (vars1 vars2 : list String.string) :
  params <> new_params ->
  Jinja.heap s !! params = Some m ->
  Jinja.heap s !! new_params = Some np ->
  NoDup vars1 ->
  vars1 ≡ₚ vars2 ->
  Jinja.for_each (Jinja.fill_default string params new_params default) vars1 s
  = Jinja.for_each (Jinja.fill_default string params new_params default)
      vars2 s.
Proof.
  intros Hne Hp Hnp Hnd Hperm.
  assert (Hnd2 : NoDup vars2) by now rewrite <- Hperm.
  rewrite (for_each_fill string params new_params default m vars1 Hne Hnd
             s np Hp Hnp).
  rewrite (for_each_fill string params new_params default m vars2 Hne Hnd2
             s np Hp Hnp).
  now rewrite (list_to_set_perm_L (C := gset String.string) _ _ Hperm).
Qed.

Lemma fill_defaults_any_order_witness :
  (0%nat <> 1%nat)
  /\ Jinja.for_each (Jinja.fill_default "{{ a }}{{ b }}" 0%nat 1%nat "?")
       ["a"; "b"]
       (Jinja.Store {[0%nat := ∅; 1%nat := ({["a" := "X"]} : gmap string string)]} [])
     = Jinja.for_each (Jinja.fill_default "{{ a }}{{ b }}" 0%nat 1%nat "?")
         ["b"; "a"]
         (Jinja.Store {[0%nat := ∅; 1%nat := {["a" := "X"]}]} []).
Proof.
  split; [discriminate|].
  apply (fill_defaults_any_order "{{ a }}{{ b }}" 0%nat 1%nat "?"
           (Jinja.Store {[0%nat := ∅; 1%nat := {["a" := "X"]}]} [])
           ∅ {["a" := "X"]} ["a"; "b"] ["b"; "a"]).
  - discriminate.
  - reflexivity.
  - reflexivity.
  - repeat constructor; set_solver.
  - apply Permutation_swap.
Defined.

(** X16.  When the caller's mapping binds every undeclared variable of the
    template, [parse_with_jinja] logs nothing and renders the template
    against the mapping as it is, whatever the default. *)
Theorem parse_with_jinja_all_bound {Value : Type}
    {engine : Jinja.Engine Value}
    (string : string) (params : Jinja.loc) (default : Value)
    (s : Jinja.store Value) (m : gmap String.string Value)
    (ast : Jinja.Ast) :
  Jinja.heap s !! params = Some m ->
  Jinja.parse string = inr ast ->
  Jinja.find_undeclared_variables ast ⊆ dom m ->
  exists s',
    Jinja.parse_with_jinja string params default s =
    Some (Jinja.render_string string m, s')
    /\ Jinja.log s' = Jinja.log s.
Proof.
  intros Hp Hparse Hsub.
  destruct (augmented_bound m _ default Hsub) as [Haug Hmiss].
  eexists. split.
  - rewrite (parse_with_jinja_parsed string params default s m ast Hp Hparse).
    cbv zeta. rewrite Haug. reflexivity.
  - cbn [Jinja.log]. rewrite Hmiss, size_empty. cbn. apply app_nil_r.
Qed.

Lemma parse_with_jinja_all_bound_witness :
  Jinja.heap (MiniJinja.store_of {["name" := "World"]}) !! 0%nat
  = Some ({["name" := "World"]} : gmap string string)
  /\ Jinja.parse "Hello {{ name }}"
     = inr [MiniJinja.Data "Hello "; MiniJinja.Name "name"]
  /\ MiniJinja.names [MiniJinja.Data "Hello "; MiniJinja.Name "name"]
     ⊆ dom ({["name" := "World"]} : gmap string string)
  /\ exists s',
       Jinja.parse_with_jinja "Hello {{ name }}" 0%nat "?"
         (MiniJinja.store_of {["name" := "World"]})
       = Some (Jinja.render_string "Hello {{ name }}" {["name" := "World"]}, s')
       /\ Jinja.log s' = [].
Proof.
  assert (Hsub : MiniJinja.names
                   [MiniJinja.Data "Hello "; MiniJinja.Name "name"]
                 ⊆ dom ({["name" := "World"]} : gmap string string)).
  { cbn. rewrite dom_singleton_L. set_solver. }
  split; [reflexivity|]. split; [reflexivity|]. split; [exact Hsub|].
  exact (@parse_with_jinja_all_bound string MiniJinja.engine
           "Hello {{ name }}" 0%nat "?"
           (MiniJinja.store_of {["name" := "World"]}) {["name" := "World"]}
           [MiniJinja.Data "Hello "; MiniJinja.Name "name"]
           eq_refl eq_refl Hsub).
Defined.

(** ** [parse_content_into_html] *)

Section ContentFacts.
Import Content.
Context {Value : Type} {engine : Jinja.Engine Value}.
Variable empty_str : Value.
Variable widget_get : string -> Exc.exception + string.
Variable render_content : context -> Exc.exception + string.

Local Abbreviation step := (content_step empty_str widget_get render_content).
Local Abbreviation loop := (content_loop empty_str widget_get render_content).

Local Abbreviation kept := (@kept Value).

Lemma kept_refl (s : Jinja.store Value) : kept s s.
Proof. intros l d H. exact H. Qed.

Lemma kept_trans (s1 s2 s3 : Jinja.store Value) :
  kept s1 s2 -> kept s2 s3 -> kept s1 s3.
Proof. intros H12 H23 l d H. apply H23, H12, H. Qed.

Lemma content_step_frame (block_number : nat) (params : Jinja.loc)
    (c : content) (l : locals) (s : Jinja.store Value)
    (m : gmap string Value) :
  Jinja.heap s !! params = Some m ->
  exists r s', step block_number params c l s = Some (r, s') /\ kept s s'.
Proof.
  intros Hp. unfold content_step.
  destruct (String.eqb (type c) "widget").
  { destruct (widget_get (value c)) as [e|raw].
    - destruct (caught e); eauto using kept_refl.
    - destruct (render_content _) as [e|out]; [destruct (caught e)|];
        eauto using kept_refl. }
  destruct (existsb _ _); [|eauto using kept_refl].
  destruct (String.eqb (type c) "text").
  - destruct (parse_with_jinja_frame (value c) params empty_str s m Hp)
      as (r & s' & -> & Hkept).
    destruct r as [v|e]; [|eauto].
    destruct (render_content _); eauto.
  - destruct (render_content _); eauto using kept_refl.
Qed.

Lemma content_loop_frame (block_number : nat) (params : Jinja.loc)
    (content_array : list content) :
  forall (l : locals) (s : Jinja.store Value) (m : gmap string Value),
    Jinja.heap s !! params = Some m ->
    exists r s',
      loop block_number params content_array l s = Some (r, s') /\ kept s s'.
Proof.
  induction content_array as [|c rest IH]; intros l s m Hp.
  - cbn. eauto using kept_refl.
  - cbn [content_loop].
    destruct (content_step_frame block_number params c l s m Hp)
      as (r & s1 & -> & Hkept1).
    destruct r as [e|l1]; [eauto|].
    destruct (IH l1 s1 m (Hkept1 _ _ Hp)) as (r & s2 & -> & Hkept2).
    eauto using kept_trans.
Qed.

Lemma content_loop_app (block_number : nat) (params : Jinja.loc)
    (pre post : list content) :
  forall (l : locals) (s : Jinja.store Value),
    loop block_number params (pre ++ post) l s =
    match loop block_number params pre l s with
    | Some (inr l', s') => loop block_number params post l' s'
    | other => other
    end.
Proof.
  induction pre as [|c pre IH]; intros l s; [reflexivity|].
  cbn [app content_loop].
  destruct (step block_number params c l s) as [[[e|l1] s1]|];
    [reflexivity | apply IH | reflexivity].
Qed.

Lemma unknown_type_raises (block_number : nat) (params : Jinja.loc)
    (c : content) (l : locals) (s : Jinja.store Value) :
  known_type c = false ->
  step block_number params c l s =
  Some (inl (Exc.Exception "InvalidInputException"
               [Exc.AStr "Invalid content type %s"; Exc.AStr (type c)]), s).
Proof.
  unfold known_type, content_step. cbn [existsb].
  intros H. apply orb_false_elim in H as [Hw Hrest].
  rewrite Hw. cbn [existsb]. now rewrite Hrest.
Qed.

Lemma content_loop_unknown (block_number : nat) (params : Jinja.loc)
    (content_array : list content) :
  Exists (fun c => known_type c = false) content_array ->
  forall l s l' s',
    loop block_number params content_array l s <> Some (inr l', s').
Proof.
  induction 1 as [c rest Hc|c rest _ IH]; intros l s l' s';
    cbn [content_loop].
  - rewrite (unknown_type_raises _ _ _ _ _ Hc). discriminate.
  - destruct (step block_number params c l s) as [[[e|l1] s1]|];
      [discriminate | apply IH | discriminate].
Qed.

Lemma content_step_numbered (block_number : nat) (params : Jinja.loc)
    (c : content) (l l' : locals) (s s' : Jinja.store Value) :
  (forall ctx e, render_content ctx = inl e -> caught e = false) ->
  step block_number params c l s = Some (inr l', s') ->
  numbered block_number l ->
  numbered block_number l'
  /\ (widget_counter l' <=
      widget_counter l + (if is_widget c then 1 else 0))%nat.
Proof.
  intros Hrender Hstep [Hidx Hblock]. unfold content_step in Hstep.
  unfold is_widget. destruct (String.eqb (type c) "widget").
  { destruct (widget_get (value c)) as [e|raw].
    - destruct (caught e); [|discriminate].
      injection Hstep as <- <-. split; [split; assumption | lia].
    - destruct (render_content _) as [e|out] eqn:Hr.
      + rewrite (Hrender _ _ Hr) in Hstep. discriminate.
      + injection Hstep as <- <-. unfold numbered.
        cbn [widget_array widget_counter]. split; [split|lia].
        * rewrite map_app, Hidx. cbn [map index].
          now rewrite seq_S.
        * apply Forall_app. split; [assumption|]. now constructor. }
  destruct (existsb _ _); [|discriminate].
  destruct (String.eqb (type c) "text").
  - destruct (Jinja.parse_with_jinja _ _ _ _) as [[[v|e] s1]|];
      [|discriminate|discriminate].
    destruct (render_content _); [discriminate|].
    injection Hstep as <- <-. cbn. split; [split; assumption | lia].
  - destruct (render_content _); [discriminate|].
    injection Hstep as <- <-. cbn. split; [split; assumption | lia].
Qed.

Lemma content_loop_numbered (block_number : nat) (params : Jinja.loc)
    (content_array : list content) :
  (forall ctx e, render_content ctx = inl e -> caught e = false) ->
  forall (l l' : locals) (s s' : Jinja.store Value),
    loop block_number params content_array l s = Some (inr l', s') ->
    numbered block_number l ->
    numbered block_number l'
    /\ (widget_counter l' <=
        widget_counter l + length (List.filter is_widget content_array))%nat.
Proof.
  intros Hrender.
  induction content_array as [|c rest IH]; intros l l' s s' Hloop Hnum.
  - cbn in Hloop. injection Hloop as <- <-. cbn. split; [assumption | lia].
  - cbn [content_loop] in Hloop.
    destruct (step block_number params c l s) as [[[e|l1] s1]|] eqn:Hstep;
      [discriminate | | discriminate].
    destruct (content_step_numbered _ _ _ _ _ _ _ Hrender Hstep Hnum)
      as [Hnum1 Hle1].
    destruct (IH _ _ _ _ Hloop Hnum1) as [Hnum' Hle'].
    split; [assumption|]. cbn [List.filter].
    destruct (is_widget c); cbn [length]; lia.
Qed.
End ContentFacts.

Example content_demo :
  ContentDemo.parse_content_into_html
    [Content.Content "text" "Hi {{ who }}. ";
     Content.Content "widget" "w0";
     Content.Content "widget" "w1";
     Content.Content "image" "{{ who }}"]
    3 None (Jinja.Store ∅ [])
  = Some (inr ("Hi . [widget]{{ who }}",
               [Content.WidgetEntry 3 1 "<b>one</b>"]),
          Jinja.Store {[0%nat := ∅; 1%nat := {["who" := ""]}]}
            [Jinja.LogRecord "Cannot parse %s properly using %s"
               "Hi {{ who }}. " ∅]).
Proof. vm_compute. reflexivity. Qed.

(** X17.  [parse_content_into_html] completes, by returning or by raising,
    and changes no dictionary that existed before the call: the caller's
    [params] in particular holds what it held, also when texts were filled
    with defaults. *)
Theorem parse_content_keeps_dictionaries {Value : Type}
    {engine : Jinja.Engine Value} (empty_str : Value)
    (widget_get : string -> Exc.exception + string)
    (render_content : Content.context -> Exc.exception + string)
    (content_array : list Content.content) (block_number : nat)
    (params : option Jinja.loc) (s : Jinja.store Value) :
  (forall p, params = Some p -> is_Some (Jinja.heap s !! p)) ->
  exists r s',
    Content.parse_content_into_html empty_str widget_get render_content
      content_array block_number params s = Some (r, s')
    /\ forall l d, Jinja.heap s !! l = Some d -> Jinja.heap s' !! l = Some d.
Proof.
  intros Hvalid. unfold Content.parse_content_into_html.
  assert (Hstart : exists m,
            Jinja.heap (snd (Content.params_or_empty params s))
              !! fst (Content.params_or_empty params s) = Some m
            /\ Content.kept s (snd (Content.params_or_empty params s))).
  { destruct params as [p|];
      cbn [Content.params_or_empty fst snd Jinja.heap].
    - destruct (Hvalid p eq_refl) as [m Hm]. exists m.
      split; [exact Hm | apply kept_refl].
    - exists ∅. split; [apply lookup_insert_eq|].
      intros l d Hl. cbn [Jinja.heap].
      rewrite lookup_insert_ne; [assumption|].
      intros Heq. apply (is_fresh (dom (Jinja.heap s))).
      rewrite Heq. apply elem_of_dom. eauto. }
  destruct (Content.params_or_empty params s) as [p s0].
  destruct Hstart as (m & Hp & Hkept0). cbn [fst snd] in Hp, Hkept0.
  destruct (content_loop_frame empty_str widget_get render_content
              block_number p content_array (Content.Locals "" [] 0) s0 m Hp)
    as (r & s' & -> & Hkept).
  destruct r as [e|l]; do 2 eexists; (split; [reflexivity|]);
    exact (kept_trans _ _ _ Hkept0 Hkept).
Qed.

Lemma parse_content_keeps_dictionaries_witness :
  (forall p, Some 0%nat = Some p ->
             is_Some (Jinja.heap (MiniJinja.store_of {["x" := "1"]}) !! p))
  /\ exists r s',
       ContentDemo.parse_content_into_html
         [Content.Content "text" "{{ x }}{{ y }}"] 0 (Some 0%nat)
         (MiniJinja.store_of {["x" := "1"]}) = Some (r, s')
       /\ forall l d,
            Jinja.heap (MiniJinja.store_of {["x" := "1"]}) !! l = Some d ->
            Jinja.heap s' !! l = Some d.
Proof.
  assert (Hvalid : forall p, Some 0%nat = Some p ->
            is_Some (Jinja.heap (MiniJinja.store_of {["x" := "1"]}) !! p)).
  { intros p [= <-]. eexists. reflexivity. }
  split; [exact Hvalid|].
  exact (parse_content_keeps_dictionaries (engine := MiniJinja.engine) ""
           ContentDemo.widget_get ContentDemo.render_content
           [Content.Content "text" "{{ x }}{{ y }}"] 0 (Some 0%nat)
           (MiniJinja.store_of {["x" := "1"]}) Hvalid).
Defined.

(** X18.  A widget that [Widget.get] does not find is ignored: the call
    gives what it gives on the content array without that item, and the
    widgets after it are numbered as if it were not there. *)
Theorem parse_content_skips_missing_widget {Value : Type}
    {engine : Jinja.Engine Value} (empty_str : Value)
    (widget_get : string -> Exc.exception + string)
    (render_content : Content.context -> Exc.exception + string)
    (pre post : list Content.content) (w : Content.content)
    (e : Exc.exception) (block_number : nat)
    (params : option Jinja.loc) (s : Jinja.store Value) :
  Content.type w = "widget" ->
  widget_get (Content.value w) = inl e ->
  Exc.exc_class e = "EntityIdNotFoundError" ->
  Content.parse_content_into_html empty_str widget_get render_content
    (pre ++ w :: post) block_number params s
  = Content.parse_content_into_html empty_str widget_get render_content
      (pre ++ post) block_number params s.
Proof.
  intros Htype Hget Hclass. unfold Content.parse_content_into_html.
  destruct (Content.params_or_empty params s) as [p s0].
  rewrite !content_loop_app.
  destruct (Content.content_loop _ _ _ _ _ pre _ s0) as [[[e'|l1] s1]|];
    try reflexivity.
  cbn [Content.content_loop]. unfold Content.content_step at 1.
  rewrite Htype, Hget. cbn [String.eqb Ascii.eqb Bool.eqb].
  unfold Content.caught, Exc.is_a. rewrite Hclass. reflexivity.
Qed.

Lemma parse_content_skips_missing_widget_witness :
  Content.type (Content.Content "widget" "w0") = "widget"
  /\ ContentDemo.widget_get "w0"
     = inl (Exc.Exception "EntityIdNotFoundError"
              [Exc.AStr "Widget not found"])
  /\ ContentDemo.parse_content_into_html
       ([Content.Content "image" "a"]
        ++ Content.Content "widget" "w0" :: [Content.Content "widget" "w1"])
       2 None (Jinja.Store ∅ [])
     = ContentDemo.parse_content_into_html
         ([Content.Content "image" "a"] ++ [Content.Content "widget" "w1"])
         2 None (Jinja.Store ∅ []).
Proof.
  split; [reflexivity|]. split; [reflexivity|].
  exact (parse_content_skips_missing_widget (engine := MiniJinja.engine) ""
           ContentDemo.widget_get ContentDemo.render_content
           [Content.Content "image" "a"] [Content.Content "widget" "w1"]
           (Content.Content "widget" "w0") _ 2 None (Jinja.Store ∅ [])
           eq_refl eq_refl eq_refl).
Defined.

(** X19.  A content array holding an item whose type is none of [widget],
    [text], [image] and [video] yields no HTML: the call raises, and it
    raises [InvalidInputException] with the type when that item comes
    first. *)
Theorem parse_content_unknown_type_raises {Value : Type}
    {engine : Jinja.Engine Value} (empty_str : Value)
    (widget_get : string -> Exc.exception + string)
    (render_content : Content.context -> Exc.exception + string)
    (content_array : list Content.content) (block_number : nat)
    (params : option Jinja.loc) (s : Jinja.store Value) :
  (forall p, params = Some p -> is_Some (Jinja.heap s !! p)) ->
  Exists (fun c => Content.known_type c = false) content_array ->
  exists e s',
    Content.parse_content_into_html empty_str widget_get render_content
      content_array block_number params s = Some (inl e, s')
    /\ forall c rest,
         content_array = c :: rest -> Content.known_type c = false ->
         e = Exc.Exception "InvalidInputException"
               [Exc.AStr "Invalid content type %s";
                Exc.AStr (Content.type c)].
Proof.
  intros Hvalid Hbad. unfold Content.parse_content_into_html.
  assert (Hstart : exists m,
            Jinja.heap (snd (Content.params_or_empty params s))
              !! fst (Content.params_or_empty params s) = Some m).
  { destruct params as [p|];
      cbn [Content.params_or_empty fst snd Jinja.heap].
    - exact (Hvalid p eq_refl).
    - exists ∅. apply lookup_insert_eq. }
  destruct (Content.params_or_empty params s) as [p s0].
  destruct Hstart as (m & Hp). cbn [fst snd] in Hp.
  destruct (content_loop_frame empty_str widget_get render_content
              block_number p content_array (Content.Locals "" [] 0) s0 m Hp)
    as (r & s' & Hloop & _).
  destruct r as [e|l].
  - rewrite Hloop. exists e, s'. split; [reflexivity|].
    intros c rest -> Hc. cbn [Content.content_loop] in Hloop.
    rewrite (unknown_type_raises _ _ _ _ _ _ _ _ Hc) in Hloop.
    congruence.
  - exfalso.
    exact (content_loop_unknown empty_str widget_get render_content
             block_number p content_array Hbad _ _ _ _ Hloop).
Qed.

Lemma parse_content_unknown_type_raises_witness :
  (forall p, (None : option Jinja.loc) = Some p ->
             is_Some (Jinja.heap (Jinja.Store (Value := string) ∅ []) !! p))
  /\ Exists (fun c => Content.known_type c = false)
       [Content.Content "image" "a"; Content.Content "audio" "b"]
  /\ exists e s',
       ContentDemo.parse_content_into_html
         [Content.Content "image" "a"; Content.Content "audio" "b"]
         0 None (Jinja.Store ∅ []) = Some (inl e, s').
Proof.
  assert (Hvalid : forall p, (None : option Jinja.loc) = Some p ->
            is_Some (Jinja.heap (Jinja.Store (Value := string) ∅ []) !! p))
    by discriminate.
  assert (Hbad : Exists (fun c => Content.known_type c = false)
                   [Content.Content "image" "a"; Content.Content "audio" "b"])
    by (right; left; reflexivity).
  split; [exact Hvalid|]. split; [exact Hbad|].
  destruct (parse_content_unknown_type_raises (engine := MiniJinja.engine) ""
              ContentDemo.widget_get ContentDemo.render_content
              [Content.Content "image" "a"; Content.Content "audio" "b"]
              0 None (Jinja.Store ∅ []) Hvalid Hbad) as (e & s' & Hcall & _).
  exists e, s'. exact Hcall.
Defined.

(** X20.  When the template of a widget does not raise
    [EntityIdNotFoundError], the widgets [parse_content_into_html] returns
    are numbered 1, 2, ... in the order found, all under the block's
    number, and there are no more of them than widget items. *)
Theorem parse_content_widget_indices {Value : Type}
    {engine : Jinja.Engine Value} (empty_str : Value)
    (widget_get : string -> Exc.exception + string)
    (render_content : Content.context -> Exc.exception + string)
    (content_array : list Content.content) (block_number : nat)
    (params : option Jinja.loc) (s s' : Jinja.store Value)
    (html : string) (widget_array : list Content.widget_entry) :
  (forall ctx e, render_content ctx = inl e -> Content.caught e = false) ->
  Content.parse_content_into_html empty_str widget_get render_content
    content_array block_number params s = Some (inr (html, widget_array), s') ->
  map Content.index widget_array = seq 1 (length widget_array)
  /\ Forall (fun w => Content.blockIndex w = block_number) widget_array
  /\ (length widget_array <=
      length (List.filter Content.is_widget content_array))%nat.
Proof.
  intros Hrender. unfold Content.parse_content_into_html.
  destruct (Content.params_or_empty params s) as [p s0].
  destruct (Content.content_loop _ _ _ _ _ _ _ s0) as [[[e|l] s1]|] eqn:Hloop;
    try discriminate.
  intros [= <- <- <-].
  destruct (content_loop_numbered empty_str widget_get render_content
              block_number p content_array Hrender _ _ _ _ Hloop)
    as [[Hidx Hblock] Hle].
  { split; [reflexivity | constructor]. }
  cbn [Content.widget_counter] in Hle.
  assert (Hlen : length (Content.widget_array l) = Content.widget_counter l).
  { rewrite <- (length_map Content.index), Hidx. apply length_seq. }
  rewrite Hlen. split; [exact Hidx|]. split; [exact Hblock | lia].
Qed.

Lemma parse_content_widget_indices_witness :
  (forall ctx e, ContentDemo.render_content ctx = inl e ->
                 Content.caught e = false)
  /\ ContentDemo.parse_content_into_html
       [Content.Content "widget" "w1"; Content.Content "widget" "w0";
        Content.Content "widget" "w1"] 4 None (Jinja.Store ∅ [])
     = Some (inr ("[widget][widget]",
                  [Content.WidgetEntry 4 1 "<b>one</b>";
                   Content.WidgetEntry 4 2 "<b>one</b>"]),
             Jinja.Store {[0%nat := ∅]} [])
  /\ map Content.index
       [Content.WidgetEntry 4 1 "<b>one</b>";
        Content.WidgetEntry 4 2 "<b>one</b>"] = seq 1 2.
Proof.
  assert (Hrender : forall ctx e, ContentDemo.render_content ctx = inl e ->
                                  Content.caught e = false).
  { intros [t b i|t v] e H; discriminate H. }
  assert (Hcall : ContentDemo.parse_content_into_html
                    [Content.Content "widget" "w1";
                     Content.Content "widget" "w0";
                     Content.Content "widget" "w1"] 4 None (Jinja.Store ∅ [])
                  = Some (inr ("[widget][widget]",
                               [Content.WidgetEntry 4 1 "<b>one</b>";
                                Content.WidgetEntry 4 2 "<b>one</b>"]),
                          Jinja.Store {[0%nat := ∅]} []))
    by (vm_compute; reflexivity).
  split; [exact Hrender|]. split; [exact Hcall|].
  exact (proj1 (parse_content_widget_indices (engine := MiniJinja.engine) ""
                  ContentDemo.widget_get ContentDemo.render_content
                  _ 4 None _ _ _ _ Hrender Hcall)).
Defined.
